(** * The MarsRover environment of [rl_exercises/environments.py]

    A shallow embedding of the [MarsRover] class and the properties of its
    transition model and of its [reset]/[step] state machine.

    Conventions of the embedding:
    - a Python [int] is a [Z];
    - a Python [float] is idealised as a rational [Q]: the engine only
      compares floats ([rng.random() < P[s][a]]) and stores them, and every
      finite float is a rational, so comparisons are exact;
    - a Python list and a NumPy array are Rocq lists, read with Python's
      indexing rule (negative indices count from the end, anything else out
      of range raises [IndexError]);
    - a method that mutates [self] and may raise is a function
      [MarsRover -> result A * MarsRover]: the state reached when the
      exception is raised is kept, as it is in Python. *)

From Stdlib Require Import ZArith QArith Lia List String.
From stdpp Require Import base option list.

Local Open Scope Z_scope.

(** ** Exceptions and results *)

(** Where an [IndexError] was raised. *)
Inductive site : Type :=
| TransitionLookup   (* transition_probabilities[...][...] / P[s, a] *)
| RewardLookup       (* rewards[...] *)
| TensorStore.       (* T[s, a, s_next] = ... *)

Inductive exn : Type :=
| IndexError (at_ : site)
| RuntimeError (action : Z)
    (* f"{action} is not a valid action (needs to be 0 or 1)" *)
| AssertionError
    (* gymnasium.spaces.Discrete: "n (counts) have to be positive" *)
| ValueError.
    (* np.random.default_rng: a negative integer seed *)

Inductive result (A : Type) : Type :=
| Ok (a : A)
| Raise (e : exn).
Arguments Ok {A} a.
Arguments Raise {A} e.

Definition is_Ok {A} (r : result A) : Prop := exists a, r = Ok a.
Definition is_Raise {A} (r : result A) : Prop := exists e, r = Raise e.

(** The documented invalid-action fault is the [RuntimeError] of [step]. *)
Definition is_InvalidAction {A} (r : result A) : Prop :=
  exists a, r = Raise (RuntimeError a).

Definition result_bind {A B} (r : result A) (k : A -> result B) : result B :=
  match r with
  | Ok a => k a
  | Raise e => Raise e
  end.

Definition or_raise {A} (e : exn) (o : option A) : result A :=
  match o with
  | Some a => Ok a
  | None => Raise e
  end.

(** ** Python indexing *)

(** The position designated by index [i] in a sequence of length [len]. *)
Definition py_index (len : nat) (i : Z) : option nat :=
  if (0 <=? i) && (i <? Z.of_nat len) then Some (Z.to_nat i)
  else if (- Z.of_nat len <=? i) && (i <? 0) then Some (Z.to_nat (Z.of_nat len + i))
  else None.

(** [l[i]] *)
Definition getitem {A} (l : list A) (i : Z) : option A :=
  match py_index (length l) i with
  | Some n => l !! n
  | None => None
  end.

(** [l[i] = v] *)
Definition setitem {A} (l : list A) (i : Z) (v : A) : option (list A) :=
  match py_index (length l) i with
  | Some n => Some (<[n := v]> l)
  | None => None
  end.

(** [P[s, a]] on a two-dimensional array. *)
Definition getitem2 {A} (P : list (list A)) (s a : Z) : option A :=
  match getitem P s with
  | Some row => getitem row a
  | None => None
  end.

(** [T[s, a, s'] = v] on a three-dimensional array. *)
Definition setitem3 {A} (T : list (list (list A))) (s a s' : Z) (v : A)
  : option (list (list (list A))) :=
  match getitem T s with
  | Some plane =>
      match getitem plane a with
      | Some row =>
          match setitem row s' v with
          | Some row' =>
              match setitem plane a row' with
              | Some plane' => setitem T s plane'
              | None => None
              end
          | None => None
          end
      | None => None
      end
  | None => None
  end.

(** [np.arange(0, n)] *)
Definition arange (n : nat) : list Z := map Z.of_nat (seq 0 n).

(** [np.zeros((a, b, c))] *)
Definition zeros3 (a b c : nat) : list (list (list Q)) :=
  replicate a (replicate b (replicate c 0%Q)).

(** [x < y] on floats. *)
Definition Qltb (x y : Q) : bool := (Qnum x * QDen y <? Qnum y * QDen x)%Z.

(** ** The random generator

    [np.random.default_rng] returns a generator whose successive
    [random()] calls yield a sequence of floats fixed by the seed.  A
    generator is that sequence together with the number of draws already
    made. *)
Record Generator : Type := {
  draws : nat -> Q;
  drawn : nat;
}.

(** [rng.random()]: the next draw and the advanced generator. *)
Definition random (g : Generator) : Q * Generator :=
  (draws g (drawn g), {| draws := draws g; drawn := S (drawn g) |}).

(** All draws lie in [[0, 1)]. *)
Definition unit_interval (g : Generator) : Prop :=
  forall i, (0 <= draws g i)%Q /\ (draws g i < 1)%Q.

(** ** Spaces

    [gymnasium.spaces.Discrete(n)] is the space [{0, ..., n-1}]; the library
    asserts [n > 0] when the space is made. *)
Inductive space : Type :=
| DiscreteSpace (n : Z).

Definition Discrete (n : Z) : result space :=
  if 0 <? n then Ok (DiscreteSpace n) else Raise AssertionError.

(** ** The engine *)

Abbreviation tensor := (list (list (list Q))).
Abbreviation info := (list (string * Z)).

Record MarsRover : Type := {
  rewards : list Q;
  transition_probabilities : list (list Q);
  current_steps : Z;
  horizon : Z;
  position : Z;
  observation_space : space;
  action_space : space;
  states : list Z;
  actions : list Z;
  transition_matrix : tensor;
  rng : Generator;
}.

Definition with_current_steps (self : MarsRover) (c : Z) : MarsRover :=
  {| rewards := rewards self;
     transition_probabilities := transition_probabilities self;
     current_steps := c;
     horizon := horizon self;
     position := position self;
     observation_space := observation_space self;
     action_space := action_space self;
     states := states self;
     actions := actions self;
     transition_matrix := transition_matrix self;
     rng := rng self |}.

Definition with_position (self : MarsRover) (p : Z) : MarsRover :=
  {| rewards := rewards self;
     transition_probabilities := transition_probabilities self;
     current_steps := current_steps self;
     horizon := horizon self;
     position := p;
     observation_space := observation_space self;
     action_space := action_space self;
     states := states self;
     actions := actions self;
     transition_matrix := transition_matrix self;
     rng := rng self |}.

Definition with_rng (self : MarsRover) (g : Generator) : MarsRover :=
  {| rewards := rewards self;
     transition_probabilities := transition_probabilities self;
     current_steps := current_steps self;
     horizon := horizon self;
     position := position self;
     observation_space := observation_space self;
     action_space := action_space self;
     states := states self;
     actions := actions self;
     transition_matrix := transition_matrix self;
     rng := g |}.

(** *** Methods that mutate [self] and may raise *)

Definition M (A : Type) : Type := MarsRover -> result A * MarsRover.

Definition ret {A} (a : A) : M A := fun self => (Ok a, self).

Definition bind {A B} (m : M A) (k : A -> M B) : M B :=
  fun self =>
    match m self with
    | (Ok a, self') => k a self'
    | (Raise e, self') => (Raise e, self')
    end.

Definition raise {A} (e : exn) : M A := fun self => (Raise e, self).
Definition get : M MarsRover := fun self => (Ok self, self).
Definition modify (f : MarsRover -> MarsRover) : M unit :=
  fun self => (Ok tt, f self).
Definition lift {A} (e : exn) (o : option A) : M A :=
  fun self => (or_raise e o, self).

Notation "'do' x <- m ;; k" := (bind m (fun x => k))
  (at level 10, x name, m at level 99, k at level 200, only parsing).

(** [self.rng.random()] *)
Definition rng_random : M Q :=
  fun self =>
    let (u, g) := random (rng self) in (Ok u, with_rng self g).

(** *** [get_next_state] *)
Definition get_next_state (s a : Z) (S : list Z) : Z :=
  let delta_s := if a =? 0 then -1 else 1 in
  let s_next := s + delta_s in
  let s_next := Z.max (Z.min s_next (Z.of_nat (length S) - 1)) 0 in
  s_next.

(** *** [get_transition_matrix] *)
Definition get_transition_matrix (S A : list Z) (P : list (list Q))
  : result tensor :=
  let T := zeros3 (length S) (length A) (length S) in
  foldl (fun T s =>
    foldl (fun T a =>
      result_bind T (fun T =>
        let s_next := get_next_state s a S in
        result_bind (or_raise (IndexError TransitionLookup) (getitem2 P s a))
          (fun probability =>
             or_raise (IndexError TensorStore)
               (setitem3 T s a s_next probability))))
      T A)
    (Ok T) S.

(** *** [reset] *)
Definition reset (seed : option Z) (options : option info) : M (Z * info) :=
  do _ <- modify (fun self => with_current_steps self 0) ;;
  do _ <- modify (fun self => with_position self 2) ;;
  do self <- get ;;
  let observation := position self in
  let info : info := [] in
  ret (observation, info).

(** *** [step] *)
Definition step (action : Z) : M (Z * Q * bool * bool * info) :=
  (* action = int(action): the identity on an int *)
  do _ <- modify (fun self => with_current_steps self (current_steps self + 1)) ;;
  do u <- rng_random ;;
  do self <- get ;;
  do row <- lift (IndexError TransitionLookup)
           (getitem (transition_probabilities self) (position self)) ;;
  do p <- lift (IndexError TransitionLookup) (getitem row action) ;;
  let follow_action := Qltb u p in
  let action := if negb follow_action then 1 - action else action in
  do _ <- (if action =? 0 then
     if position self >? 0
     then modify (fun self => with_position self (position self - 1))
     else ret tt
   else if action =? 1 then
     if position self <? 4
     then modify (fun self => with_position self (position self + 1))
     else ret tt
   else raise (RuntimeError action)) ;;
  do self <- get ;;
  do reward <- lift (IndexError RewardLookup)
              (getitem (rewards self) (position self)) ;;
  let terminated := false in
  let truncated := current_steps self >=? horizon self in
  let info : info := [] in
  ret (position self, reward, terminated, truncated, info).

(** The outcome of each call of a sequence of [step] calls on one engine. *)
Fixpoint outcomes (acts : list Z) (self : MarsRover)
  : list (result (Z * Q * bool * bool * info)) :=
  match acts with
  | [] => []
  | a :: acts' =>
      let (r, self') := step a self in
      r :: outcomes acts' self'
  end.

(** The engine after a sequence of [step] calls. *)
Definition after (acts : list Z) (self : MarsRover) : MarsRover :=
  foldl (fun self a => snd (step a self)) self acts.

(** *** [__init__] *)
Section Construction.

(** The draw sequence [np.random.default_rng(seed)] produces for an
    integer seed. *)
Variable seeded_draws : Z -> nat -> Q.

(** [np.random.default_rng(seed)]: a negative integer seed is refused with
    [ValueError]; without a seed the generator is initialised from the
    operating system's entropy, which is [entropy] here. *)
Definition default_rng (entropy : nat -> Q) (seed : option Z)
  : result Generator :=
  match seed with
  | Some z =>
      if z <? 0 then Raise ValueError
      else Ok {| draws := seeded_draws z; drawn := 0 |}
  | None => Ok {| draws := entropy; drawn := 0 |}
  end.

Definition __init__ (entropy : nat -> Q)
    (transition_probabilities : list (list Q)) (rewards : list Q)
    (horizon : Z) (seed : option Z) : result MarsRover :=
  let n := length transition_probabilities in
  result_bind (Discrete (Z.of_nat n)) (fun observation_space =>
  result_bind (Discrete 2) (fun action_space =>
  let states := arange n in
  let actions := arange 2 in
  result_bind
    (get_transition_matrix states actions transition_probabilities)
    (fun T =>
  result_bind (default_rng entropy seed) (fun rng =>
       Ok {| rewards := rewards;
             transition_probabilities := transition_probabilities;
             current_steps := 0;
             horizon := horizon;
             position := 2;
             observation_space := observation_space;
             action_space := action_space;
             states := states;
             actions := actions;
             transition_matrix := T;
             rng := rng |})))).

End Construction.

(** ** Fixtures: the constructor's default arguments and concrete engines *)

(** [np.ones((n, 2))] *)
Definition ones (n : nat) : list (list Q) := replicate n [1%Q; 1%Q].

Definition default_transition_probabilities : list (list Q) := ones 5.
Definition default_rewards : list Q := [1; 0; 0; 0; 10]%Q.
Definition default_horizon : Z := 10.

(** A generator sequence whose draws are all [u]. *)
Definition constant_draws (u : Q) : nat -> Q := fun _ => u.

(** A seeded generator family used to run concrete engines. *)
Definition fixture_seeded : Z -> nat -> Q := fun _ => constant_draws (1 # 2).

(** ** Derived descriptions used by the statements *)

(** The action applied after the draw [u] was compared with [p]. *)
Definition effective_action (u p : Q) (action : Z) : Z :=
  if Qltb u p then action else 1 - action.

(** Where [step] moves the rover for an applied action in {0, 1}. *)
Definition arrival (pos eff : Z) : Z :=
  if eff =? 0 then (if pos >? 0 then pos - 1 else pos)
  else (if pos <? 4 then pos + 1 else pos).

(** The engine once [step] has counted the call and drawn its number. *)
Definition counted (self : MarsRover) : MarsRover :=
  with_rng (with_current_steps self (current_steps self + 1))
           (snd (random (rng self))).

(** The end of [step]: read the reward of the current position and return. *)
Definition report (self : MarsRover)
  : result (Z * Q * bool * bool * info) * MarsRover :=
  match getitem (rewards self) (position self) with
  | Some reward =>
      (Ok (position self, reward, false,
           current_steps self >=? horizon self, []), self)
  | None => (Raise (IndexError RewardLookup), self)
  end.

(** [P] has exactly two columns. *)
Definition two_columns (P : list (list Q)) : bool :=
  forallb (fun row => Nat.eqb (length row) 2) P.

(** The shape on which every [step] with a valid action returns: at least
    the five positions [step] can reach, two columns, a reward per row. *)
Definition well_shaped (self : MarsRover) : bool :=
  Nat.leb 5 (length (transition_probabilities self))
  && two_columns (transition_probabilities self)
  && Nat.eqb (length (rewards self)) (length (transition_probabilities self)).

(** The positions [step] keeps the rover in. *)
Definition on_track (self : MarsRover) : bool :=
  (0 <=? position self) && (position self <=? 4).

Definition valid_action (action : Z) : Prop := action = 0 \/ action = 1.

(** The contract "an invalid action raises the invalid-action fault and
    mutates neither [position] nor [current_steps]". *)
Definition rejects_without_mutation (self : MarsRover) (action : Z) : Prop :=
  is_InvalidAction (fst (step action self)) /\
  position (snd (step action self)) = position self /\
  current_steps (snd (step action self)) = current_steps self.

(** What the caller observes of one call: observation and reward. *)
Definition signal (r : result (Z * Q * bool * bool * info)) : option (Z * Q) :=
  match r with
  | Ok (obs, reward, _, _, _) => Some (obs, reward)
  | Raise _ => None
  end.

(** [T[s][a]], the row of next-state probabilities of a state and action. *)
Definition transition_row (T : tensor) (s a : Z) : option (list Q) :=
  getitem2 T s a.

(** Configurations other than the default one. *)
Definition three_state_rewards : list Q := [1; 0; 0]%Q.
Definition six_state_rewards : list Q := [1; 0; 0; 0; 0; 10]%Q.
Definition fair_coin_probabilities : list (list Q) :=
  replicate 5 [1 # 2; 1 # 2]%Q.

(** The row [get_transition_matrix] leaves at [T[s][a]]: the probability
    [p = P[s, a]] at the intended next state, 0 elsewhere. *)
Definition intended_row (n : nat) (s_next : Z) (p : Q) : list Q :=
  <[Z.to_nat s_next := p]> (replicate n 0%Q).

(** The two rows of state [k], and the tensor once the loop of
    [get_transition_matrix] has gone through the states below [k]. *)
Definition intended_plane (P : list (list Q)) (k : nat) : list (list Q) :=
  let n := length P in
  [ intended_row n (get_next_state (Z.of_nat k) 0 (arange n))
      (default 0%Q (getitem2 P (Z.of_nat k) 0));
    intended_row n (get_next_state (Z.of_nat k) 1 (arange n))
      (default 0%Q (getitem2 P (Z.of_nat k) 1)) ].

Definition tensor_upto (P : list (list Q)) (k : nat) : tensor :=
  let n := length P in
  (intended_plane P <$> seq 0 k)
  ++ replicate (n - k) (replicate 2 (replicate n 0%Q)).

(** [np.sum] of a one-dimensional array. *)
Definition row_sum (row : list Q) : Q := foldr Qplus 0%Q row.

(** The matrix [T_] the source records for the default configuration. *)
Definition T_ : tensor :=
  [ [ [1; 0; 0; 0; 0]; [0; 1; 0; 0; 0] ];
    [ [1; 0; 0; 0; 0]; [0; 0; 1; 0; 0] ];
    [ [0; 1; 0; 0; 0]; [0; 0; 0; 1; 0] ];
    [ [0; 0; 1; 0; 0]; [0; 0; 0; 0; 1] ];
    [ [0; 0; 0; 1; 0]; [0; 0; 0; 0; 1] ] ]%Q.

(** The engine [MarsRover(seed=0)] under [fixture_seeded]. *)
Definition default_engine : MarsRover :=
  {| rewards := default_rewards;
     transition_probabilities := default_transition_probabilities;
     current_steps := 0;
     horizon := default_horizon;
     position := 2;
     observation_space := DiscreteSpace 5;
     action_space := DiscreteSpace 2;
     states := arange 5;
     actions := arange 2;
     transition_matrix := T_;
     rng := {| draws := fixture_seeded 0; drawn := 0 |} |}.

(** ** [get_reward_per_action] and the readings used to state its result *)

(** [np.zeros((a, b))] *)
Definition zeros2 (a b : nat) : list (list Q) :=
  replicate a (replicate b 0%Q).

(** [M[s, a] = v] on a two-dimensional array. *)
Definition setitem2 {A} (M : list (list A)) (s a : Z) (v : A)
  : option (list (list A)) :=
  match getitem M s with
  | Some row =>
      match setitem row a v with
      | Some row' => setitem M s row'
      | None => None
      end
  | None => None
  end.

(** [get_reward_per_action]: the right-hand side [self.rewards[s_index]] is
    read before the cell [R_sa[s, a]] is written; an out-of-range write
    would be the [IndexError] of an array store. *)
Definition get_reward_per_action (self : MarsRover)
  : result (list (list Q)) :=
  let shape := (length (states self), length (actions self)) in
  let R_sa := zeros2 (fst shape) (snd shape) in
  foldl (fun R_sa s =>
    foldl (fun R_sa a =>
      result_bind R_sa (fun R_sa =>
        let delta_s := if a =? 0 then -1 else 1 in
        let s_index :=
          Z.max 0 (Z.min (Z.of_nat (length (states self)) - 1) (s + delta_s)) in
        result_bind
          (or_raise (IndexError RewardLookup) (getitem (rewards self) s_index))
          (fun reward =>
             or_raise (IndexError TensorStore) (setitem2 R_sa s a reward))))
      R_sa (arange (snd shape)))
    (Ok R_sa) (arange (fst shape)).

(** [T[s][a][s']] *)
Definition getitem3 {A} (T : list (list (list A))) (s a s' : Z) : option A :=
  match getitem2 T s a with
  | Some row => getitem row s'
  | None => None
  end.

(** A call that raised some [IndexError]. *)
Definition is_IndexError {A} (r : result A) : Prop :=
  exists at_, r = Raise (IndexError at_).

(** The generator after [k] more draws. *)
Definition advanced (g : Generator) (k : nat) : Generator :=
  {| draws := draws g; drawn := (drawn g + k)%nat |}.

(** Every probability of the table equals [q]. *)
Definition all_probabilities (q : Q) (P : list (list Q)) : Prop :=
  forall row p, In row P -> In p row -> (p == q)%Q.

(** The reward row of state [k]: what the rover earns by going left and by
    going right, where [R] has a reward for each of the [n] states. *)
Definition reward_row (R : list Q) (n : nat) (k : nat) : list Q :=
  [ default 0%Q (getitem R (get_next_state (Z.of_nat k) 0 (arange n)));
    default 0%Q (getitem R (get_next_state (Z.of_nat k) 1 (arange n))) ].

Definition rewards_upto (R : list Q) (n : nat) (k : nat) : list (list Q) :=
  (reward_row R n <$> seq 0 k) ++ replicate (n - k) (replicate 2 0%Q).

(** The engines [MarsRover(np.ones((2, 2)), [1, 10], seed=0)] and
    [MarsRover(np.ones((3, 2)), [1, 0, 0], seed=0)] under [fixture_seeded]. *)
Definition two_state_engine : MarsRover :=
  {| rewards := [1; 10]%Q;
     transition_probabilities := ones 2;
     current_steps := 0;
     horizon := default_horizon;
     position := 2;
     observation_space := DiscreteSpace 2;
     action_space := DiscreteSpace 2;
     states := arange 2;
     actions := arange 2;
     transition_matrix :=
       [ [ [1; 0]; [0; 1] ]; [ [1; 0]; [0; 1] ] ]%Q;
     rng := {| draws := fixture_seeded 0; drawn := 0 |} |}.

Definition three_state_engine : MarsRover :=
  {| rewards := three_state_rewards;
     transition_probabilities := ones 3;
     current_steps := 0;
     horizon := default_horizon;
     position := 2;
     observation_space := DiscreteSpace 3;
     action_space := DiscreteSpace 2;
     states := arange 3;
     actions := arange 2;
     transition_matrix :=
       [ [ [1; 0; 0]; [0; 1; 0] ];
         [ [1; 0; 0]; [0; 0; 1] ];
         [ [0; 1; 0]; [0; 0; 1] ] ]%Q;
     rng := {| draws := fixture_seeded 0; drawn := 0 |} |}.

(** The engine [MarsRover(np.zeros((5, 2)), seed=0)] under
    [fixture_seeded]: the requested action is never followed. *)
Definition contrary_engine : MarsRover :=
  {| rewards := default_rewards;
     transition_probabilities := replicate 5 [0; 0]%Q;
     current_steps := 0;
     horizon := default_horizon;
     position := 2;
     observation_space := DiscreteSpace 5;
     action_space := DiscreteSpace 2;
     states := arange 5;
     actions := arange 2;
     transition_matrix := zeros3 5 2 5;
     rng := {| draws := fixture_seeded 0; drawn := 0 |} |}.

(** The body of the loops of [get_reward_per_action], named for the
    proofs: the assignment to the cell of state [s] and action [a]. *)
Definition reward_cell (self : MarsRover) (s : Z)
    (R_sa : result (list (list Q))) (a : Z) : result (list (list Q)) :=
  result_bind R_sa (fun R_sa =>
    let delta_s := if a =? 0 then -1 else 1 in
    let s_index :=
      Z.max 0 (Z.min (Z.of_nat (length (states self)) - 1) (s + delta_s)) in
    result_bind
      (or_raise (IndexError RewardLookup) (getitem (rewards self) s_index))
      (fun reward =>
         or_raise (IndexError TensorStore) (setitem2 R_sa s a reward))).

(** No error, or an [IndexError]. *)
Definition Ok_or_IndexError {A} (r : result A) : Prop :=
  match r with
  | Ok _ => True
  | Raise e => exists at_, e = IndexError at_
  end.

(** The engine [MarsRover(rewards=[1, 0], seed=0)] under [fixture_seeded]:
    five states, two rewards. *)
Definition underpaid_engine : MarsRover :=
  {| rewards := [1; 0]%Q;
     transition_probabilities := default_transition_probabilities;
     current_steps := 0;
     horizon := default_horizon;
     position := 2;
     observation_space := DiscreteSpace 5;
     action_space := DiscreteSpace 2;
     states := arange 5;
     actions := arange 2;
     transition_matrix := T_;
     rng := {| draws := fixture_seeded 0; drawn := 0 |} |}.

(** The body of the loops of [get_transition_matrix], named for the
    proofs: the assignment to the cell of state [s] and action [a]. *)
Definition transition_cell (S : list Z) (P : list (list Q)) (s : Z)
    (T : result tensor) (a : Z) : result tensor :=
  result_bind T (fun T =>
    let s_next := get_next_state s a S in
    result_bind (or_raise (IndexError TransitionLookup) (getitem2 P s a))
      (fun probability =>
         or_raise (IndexError TensorStore)
           (setitem3 T s a s_next probability))).

(** Two generators that yield the same numbers from where they stand. *)
Definition same_draws (g1 g2 : Generator) : Prop :=
  drawn g1 = drawn g2 /\ forall i, (draws g1 i == draws g2 i)%Q.

(** ** Indexing lemmas *)

Lemma py_index_nonneg (len : nat) (i : Z) :
  0 <= i < Z.of_nat len -> py_index len i = Some (Z.to_nat i).
Proof.
  intros H. unfold py_index.
  replace (0 <=? i) with true by lia. replace (i <? Z.of_nat len) with true by lia.
  reflexivity.
Qed.

Lemma py_index_None (len : nat) (i : Z) :
  Z.of_nat len <= i \/ i < - Z.of_nat len -> py_index len i = None.
Proof.
  intros H. unfold py_index.
  destruct (0 <=? i) eqn:H0; destruct (i <? Z.of_nat len) eqn:H1; simpl; try lia.
  all: destruct (- Z.of_nat len <=? i) eqn:H2; destruct (i <? 0) eqn:H3; simpl;
    try reflexivity; lia.
Qed.

Lemma getitem_in_range {A} (l : list A) (i : Z) :
  0 <= i < Z.of_nat (length l) -> exists x, getitem l i = Some x.
Proof.
  intros H. unfold getitem. rewrite py_index_nonneg by exact H.
  destruct (l !! Z.to_nat i) as [x|] eqn:E; [eauto|].
  apply lookup_ge_None in E. lia.
Qed.

Lemma getitem_out_of_range {A} (l : list A) (i : Z) :
  Z.of_nat (length l) <= i -> getitem l i = None.
Proof.
  intros H. unfold getitem. rewrite py_index_None by (left; exact H). reflexivity.
Qed.

Lemma getitem_Some_elem {A} (l : list A) (i : Z) (x : A) :
  getitem l i = Some x -> In x l.
Proof.
  unfold getitem. destruct (py_index (length l) i) as [n|]; [|discriminate].
  intros H. apply list_elem_of_In. eapply list_elem_of_lookup_2. exact H.
Qed.

Lemma Qltb_lt (x y : Q) : Qltb x y = true <-> (x < y)%Q.
Proof. unfold Qltb, Qlt. apply Z.ltb_lt. Qed.

(** ** [step], case by case *)

Lemma step_eq (self : MarsRover) (action : Z) :
  step action self =
  match getitem (transition_probabilities self) (position self) with
  | None => (Raise (IndexError TransitionLookup), counted self)
  | Some row =>
      match getitem row action with
      | None => (Raise (IndexError TransitionLookup), counted self)
      | Some p =>
          let eff := effective_action (fst (random (rng self))) p action in
          if eff =? 0 then
            report (if position self >? 0
                    then with_position (counted self) (position self - 1)
                    else counted self)
          else if eff =? 1 then
            report (if position self <? 4
                    then with_position (counted self) (position self + 1)
                    else counted self)
          else (Raise (RuntimeError eff), counted self)
      end
  end.
Proof.
  unfold step, bind, modify, rng_random, get, lift, ret, raise, report,
    counted, effective_action.
  cbn [random fst snd rng with_current_steps with_rng position
       transition_probabilities].
  destruct (getitem (transition_probabilities self) (position self))
    as [row|]; cbn [or_raise]; [|reflexivity].
  destruct (getitem row action) as [p|]; cbn [or_raise]; [|reflexivity].
  destruct (Qltb (draws (rng self) (drawn (rng self))) p); cbn [negb].
  - destruct (action =? 0).
    + destruct (position self >? 0); cbn;
        destruct (getitem _ _); reflexivity.
    + destruct (action =? 1); [|reflexivity].
      destruct (position self <? 4); cbn;
        destruct (getitem _ _); reflexivity.
  - destruct (1 - action =? 0).
    + destruct (position self >? 0); cbn;
        destruct (getitem _ _); reflexivity.
    + destruct (1 - action =? 1); [|reflexivity].
      destruct (position self <? 4); cbn;
        destruct (getitem _ _); reflexivity.
Qed.

Lemma report_state (self : MarsRover) : snd (report self) = self.
Proof. unfold report. destruct (getitem _ _); reflexivity. Qed.

Lemma report_Ok (self : MarsRover) obs reward terminated truncated (i : info) :
  fst (report self) = Ok (obs, reward, terminated, truncated, i) ->
  obs = position self /\ getitem (rewards self) obs = Some reward /\
  terminated = false /\ truncated = (current_steps self >=? horizon self) /\
  i = [].
Proof.
  unfold report. destruct (getitem (rewards self) (position self)) eqn:E;
    cbn; [|discriminate].
  intros [= <- <- <- <- <-]. auto.
Qed.

(** Whatever the action, [step] counts the call and keeps the tables. *)
Lemma step_state (self : MarsRover) (action : Z) :
  current_steps (snd (step action self)) = current_steps self + 1 /\
  rewards (snd (step action self)) = rewards self /\
  transition_probabilities (snd (step action self))
    = transition_probabilities self /\
  horizon (snd (step action self)) = horizon self /\
  rng (snd (step action self)) = snd (random (rng self)).
Proof.
  rewrite step_eq.
  destruct (getitem (transition_probabilities self) (position self))
    as [row|]; [|repeat split].
  destruct (getitem row action) as [p|]; [|repeat split].
  cbv zeta.
  destruct (_ =? 0); [rewrite report_state; destruct (_ >? _); repeat split|].
  destruct (_ =? 1); [rewrite report_state; destruct (_ <? _); repeat split|].
  repeat split.
Qed.

(** What a returning [step] returned, and from which draw. *)
Lemma step_Ok (self : MarsRover) (action : Z)
    obs reward terminated truncated (i : info) :
  fst (step action self) = Ok (obs, reward, terminated, truncated, i) ->
  exists row p,
    getitem (transition_probabilities self) (position self) = Some row /\
    getitem row action = Some p /\
    valid_action (effective_action (fst (random (rng self))) p action) /\
    obs = arrival (position self)
            (effective_action (fst (random (rng self))) p action) /\
    position (snd (step action self)) = obs /\
    getitem (rewards self) obs = Some reward /\
    terminated = false /\
    truncated = (current_steps self + 1 >=? horizon self) /\
    i = [].
Proof.
  rewrite step_eq.
  destruct (getitem (transition_probabilities self) (position self))
    as [row|] eqn:Erow; [|discriminate].
  destruct (getitem row action) as [p|] eqn:Ep; [|discriminate].
  cbv zeta. unfold arrival, valid_action.
  set (eff := effective_action _ _ _).
  destruct (eff =? 0) eqn:E0.
  - rewrite report_state. intros H. apply report_Ok in H.
    exists row, p. apply Z.eqb_eq in E0. fold eff. rewrite E0.
    destruct (position self >? 0); cbn [position with_position counted
      with_rng with_current_steps current_steps rewards horizon Z.eqb Pos.eqb]
      in H |- *;
      intuition.
  - destruct (eff =? 1) eqn:E1; [|discriminate].
    rewrite report_state. intros H. apply report_Ok in H.
    exists row, p. apply Z.eqb_eq in E1. fold eff. rewrite E1.
    destruct (position self <? 4); cbn [position with_position counted
      with_rng with_current_steps current_steps rewards horizon Z.eqb Pos.eqb]
      in H |- *;
      intuition.
Qed.

Lemma effective_action_valid (u p : Q) (action : Z) :
  valid_action action -> valid_action (effective_action u p action).
Proof.
  unfold valid_action, effective_action. destruct (Qltb u p); lia.
Qed.

Lemma effective_action_invalid (u p : Q) (action : Z) :
  ~ valid_action action -> ~ valid_action (effective_action u p action).
Proof.
  unfold valid_action, effective_action. destruct (Qltb u p); lia.
Qed.

Lemma arrival_on_track (pos eff : Z) :
  0 <= pos <= 4 -> 0 <= arrival pos eff <= 4.
Proof.
  unfold arrival. intros H.
  destruct (eff =? 0); [destruct (pos >? 0) eqn:E | destruct (pos <? 4) eqn:E];
    lia.
Qed.

Lemma well_shaped_inv (self : MarsRover) :
  well_shaped self = true ->
  (5 <= length (transition_probabilities self))%nat /\
  (forall row, In row (transition_probabilities self) -> length row = 2%nat) /\
  length (rewards self) = length (transition_probabilities self).
Proof.
  unfold well_shaped, two_columns. intros H.
  apply andb_prop in H as [H H3]. apply andb_prop in H as [H1 H2].
  apply Nat.leb_le in H1. apply Nat.eqb_eq in H3.
  split; [exact H1|]. split; [|exact H3].
  intros row Hrow. apply Nat.eqb_eq.
  exact (proj1 (forallb_forall _ _) H2 row Hrow).
Qed.

Lemma on_track_inv (self : MarsRover) :
  on_track self = true <-> 0 <= position self <= 4.
Proof. unfold on_track. lia. Qed.

(** On a well-shaped engine whose rover is on the track, [step] with a valid
    action returns, and the engine stays well shaped and on the track. *)
Lemma step_returns (self : MarsRover) (action : Z) :
  well_shaped self = true -> on_track self = true -> valid_action action ->
  (exists obs reward,
     fst (step action self)
     = Ok (obs, reward, false, current_steps self + 1 >=? horizon self, [])) /\
  well_shaped (snd (step action self)) = true /\
  on_track (snd (step action self)) = true.
Proof.
  intros Hshape Htrack Hact.
  pose proof (well_shaped_inv _ Hshape) as (Hn & Hcols & Hrew).
  apply on_track_inv in Htrack.
  destruct (getitem_in_range (transition_probabilities self) (position self))
    as [row Erow]; [lia|].
  pose proof (Hcols row (getitem_Some_elem _ _ _ Erow)) as Hlen.
  destruct (getitem_in_range row action) as [p Ep];
    [unfold valid_action in Hact; lia|].
  pose proof (effective_action_valid (fst (random (rng self))) p action Hact)
    as Heff.
  pose proof (arrival_on_track (position self)
                (effective_action (fst (random (rng self))) p action) Htrack)
    as Harr.
  destruct (getitem_in_range (rewards self)
              (arrival (position self)
                 (effective_action (fst (random (rng self))) p action)))
    as [reward Er]; [lia|].
  assert (Hshape' : well_shaped (snd (step action self)) = true).
  { unfold well_shaped.
    destruct (step_state self action) as (_ & -> & -> & _). exact Hshape. }
  assert (Hret : exists obs reward,
     fst (step action self)
     = Ok (obs, reward, false, current_steps self + 1 >=? horizon self, [])).
  { rewrite step_eq, Erow, Ep. cbv zeta.
    unfold arrival in Er. unfold report.
    set (eff := effective_action _ _ _) in *.
    destruct Heff as [-> | ->]; cbn [Z.eqb Pos.eqb] in *.
    - destruct (position self >? 0);
        cbn [position with_position counted with_rng with_current_steps
             current_steps rewards horizon];
        rewrite Er; cbn [fst]; eauto.
    - destruct (position self <? 4);
        cbn [position with_position counted with_rng with_current_steps
             current_steps rewards horizon];
        rewrite Er; cbn [fst]; eauto. }
  split; [exact Hret|]. split; [exact Hshape'|].
  destruct Hret as (obs & reward' & Hret).
  apply step_Ok in Hret as (row' & p' & _ & _ & _ & Hobs & Hpos & _).
  apply on_track_inv. rewrite Hpos, Hobs. apply arrival_on_track. exact Htrack.
Qed.

(** The flags of a run of valid actions: every call returns, never
    terminated, and truncated from the call that reaches the horizon on. *)
Lemma outcomes_flags (acts : list Z) :
  forall self : MarsRover,
  well_shaped self = true -> on_track self = true ->
  Forall valid_action acts ->
  forall k : nat, (k < length acts)%nat ->
  exists obs reward,
    outcomes acts self !! k
    = Some (Ok (obs, reward, false,
                current_steps self + Z.of_nat k + 1 >=? horizon self, [])).
Proof.
  induction acts as [|a acts IH]; intros self Hshape Htrack Hacts k Hk;
    [cbn in Hk; lia|].
  apply Forall_cons in Hacts as [Ha Hacts].
  destruct (step_returns self a Hshape Htrack Ha)
    as ((obs & reward & Hr) & Hshape' & Htrack').
  pose proof (step_state self a) as (Hsteps & _ & _ & Hhor & _).
  cbn [outcomes]. destruct (step a self) as [r self'] eqn:E.
  cbn [fst snd] in *. destruct k as [|k].
  - exists obs, reward. cbn. rewrite Hr. do 4 f_equal. f_equal. lia.
  - cbn in Hk. apply Nat.succ_lt_mono in Hk.
    destruct (IH self' Hshape' Htrack' Hacts k Hk) as (obs' & reward' & Hk').
    exists obs', reward'.
    change ((r :: outcomes acts self') !! S k) with (outcomes acts self' !! k).
    replace (current_steps self + Z.of_nat (S k) + 1)
      with (current_steps self' + Z.of_nat k + 1) by lia.
    rewrite <- Hhor. exact Hk'.
Qed.

Lemma length_outcomes (acts : list Z) :
  forall self : MarsRover, length (outcomes acts self) = length acts.
Proof.
  induction acts as [|a acts IH]; intros self; [reflexivity|].
  cbn [outcomes]. destruct (step a self) as [r self']. cbn [length].
  rewrite IH. reflexivity.
Qed.

(** Whatever the engine and the actions, the k-th call of a run that
    returns reports the flags of the count it has reached: failing calls are
    counted too. *)
Lemma outcomes_Ok_flags (acts : list Z) :
  forall (self : MarsRover) (k : nat) obs reward terminated truncated
         (i : info),
  outcomes acts self !! k = Some (Ok (obs, reward, terminated, truncated, i)) ->
  terminated = false /\
  truncated = (current_steps self + Z.of_nat k + 1 >=? horizon self).
Proof.
  induction acts as [|a acts IH];
    intros self k obs reward terminated truncated i H; [discriminate H|].
  pose proof (step_state self a) as (Hsteps & _ & _ & Hhor & _).
  cbn [outcomes] in H. destruct (step a self) as [r self'] eqn:E.
  cbn [snd] in Hsteps, Hhor. destruct k as [|k].
  - injection H as ->.
    assert (H : fst (step a self)
                = Ok (obs, reward, terminated, truncated, i))
      by (rewrite E; reflexivity).
    apply step_Ok in H as (row & p & _ & _ & _ & _ & _ & _ & -> & -> & _).
    split; [reflexivity|]. f_equal. lia.
  - change ((r :: outcomes acts self') !! S k)
      with (outcomes acts self' !! k) in H.
    apply IH in H as [-> ->]. split; [reflexivity|].
    rewrite Hsteps, Hhor. f_equal. lia.
Qed.

(** ** The fixtures are what the constructor builds *)

Lemma default_transition_matrix :
  get_transition_matrix (arange 5) (arange 2) default_transition_probabilities
  = Ok T_.
Proof. reflexivity. Qed.

Lemma default_engine_constructed (entropy : nat -> Q) :
  __init__ fixture_seeded entropy default_transition_probabilities
    default_rewards default_horizon (Some 0)
  = Ok default_engine.
Proof. reflexivity. Qed.

(** The end-to-end scenario of the default configuration. *)
Lemma default_scenario :
  fst (reset None None default_engine) = Ok (2, []) /\
  outcomes [1; 1] (snd (reset None None default_engine))
  = [Ok (3, 0%Q, false, false, []); Ok (4, 10%Q, false, false, [])] /\
  outcomes (replicate 10 1) (snd (reset None None default_engine)) !! 9%nat
  = Some (Ok (4, 10%Q, false, true, [])).
Proof. repeat split. Qed.

(** ** [reset] *)

(** C7: for every engine state and every [seed] and [options], [reset] sets
    [current_steps] to 0 and [position] to the start index 2 and returns
    [(2, {})]; it touches nothing else (the generator is not reseeded) and
    [seed] and [options] have no effect. *)
Theorem reset_returns_start
    (self : MarsRover) (seed : option Z) (options : option info) :
  fst (reset seed options self) = Ok (2, []) /\
  current_steps (snd (reset seed options self)) = 0 /\
  position (snd (reset seed options self)) = 2 /\
  snd (reset seed options self)
  = with_position (with_current_steps self 0) 2 /\
  rng (snd (reset seed options self)) = rng self /\
  reset seed options self = reset None None self.
Proof. repeat split. Qed.

(** ** [get_next_state] *)

(** C9: for every state space [S] of size [n], the movement rule keeps the
    rover at the boundaries: from state 0 action 0 gives state 0, and (the
    space having a last state) from state [n-1] action 1 gives [n-1]. *)
Theorem get_next_state_boundaries (S : list Z) :
  get_next_state 0 0 S = 0 /\
  (1 <= Z.of_nat (length S) ->
   get_next_state (Z.of_nat (length S) - 1) 1 S = Z.of_nat (length S) - 1).
Proof.
  unfold get_next_state. cbn [Z.eqb]. split; [lia|]. intros H. lia.
Qed.

Lemma get_next_state_boundaries_witness :
  1 <= Z.of_nat (length (arange 5)) /\
  get_next_state 0 0 (arange 5) = 0 /\
  get_next_state 4 1 (arange 5) = 4.
Proof.
  assert (H : 1 <= Z.of_nat (length (arange 5))) by (cbn; lia).
  split; [exact H|]. split.
  - exact (proj1 (get_next_state_boundaries (arange 5))).
  - exact (proj2 (get_next_state_boundaries (arange 5)) H).
Defined.

(** ** [step] on invalid actions *)

(** C10: on an engine whose table has two columns, for every action
    [a >= 2] and every state, [step a] raises [IndexError] at the lookup
    [transition_probabilities[position][a]]: the call has been counted and
    the number drawn, the position is untouched, and the error is not the
    invalid-action [RuntimeError]. *)
Theorem step_action_above_one_IndexError (self : MarsRover) (action : Z) :
  two_columns (transition_probabilities self) = true ->
  2 <= action ->
  step action self = (Raise (IndexError TransitionLookup), counted self) /\
  ~ is_InvalidAction (fst (step action self)) /\
  current_steps (snd (step action self)) = current_steps self + 1 /\
  position (snd (step action self)) = position self.
Proof.
  intros Hcols Hact.
  assert (E : step action self
              = (Raise (IndexError TransitionLookup), counted self)).
  { rewrite step_eq.
    destruct (getitem (transition_probabilities self) (position self))
      as [row|] eqn:Erow; [|reflexivity].
    assert (Hlen : length row = 2%nat).
    { apply Nat.eqb_eq.
      exact (proj1 (forallb_forall _ _) Hcols row
               (getitem_Some_elem _ _ _ Erow)). }
    rewrite getitem_out_of_range by lia. reflexivity. }
  rewrite E. cbn [fst snd]. repeat split.
  intros [a Ha]. discriminate Ha.
Qed.

Lemma step_action_above_one_IndexError_witness :
  step 2 default_engine
  = (Raise (IndexError TransitionLookup), counted default_engine) /\
  ~ is_InvalidAction (fst (step 2 default_engine)) /\
  current_steps (snd (step 2 default_engine)) = 1 /\
  position (snd (step 2 default_engine)) = 2.
Proof.
  apply (step_action_above_one_IndexError default_engine 2).
  - reflexivity.
  - lia.
Defined.

(** C2, as the engine has it: for every engine state and every action
    outside {0, 1}, [step] raises and leaves [position] unchanged, but the
    failing call has been counted and has drawn its random number:
    [current_steps] is one more than before, the generator has advanced by
    one draw, and nothing else of the engine has changed.  Whenever the
    lookup [transition_probabilities[position][action]] succeeds, the error
    is the invalid-action [RuntimeError]. *)
Theorem step_invalid_action_raises (self : MarsRover) (action : Z) :
  ~ valid_action action ->
  is_Raise (fst (step action self)) /\
  snd (step action self) = counted self /\
  position (snd (step action self)) = position self /\
  current_steps (snd (step action self)) = current_steps self + 1 /\
  rng (snd (step action self)) = snd (random (rng self)) /\
  drawn (rng (snd (step action self))) = S (drawn (rng self)) /\
  (forall row p,
     getitem (transition_probabilities self) (position self) = Some row ->
     getitem row action = Some p ->
     is_InvalidAction (fst (step action self))).
Proof.
  intros Hact. rewrite step_eq.
  destruct (getitem (transition_probabilities self) (position self))
    as [row|] eqn:Erow.
  2:{ repeat split; [eexists; reflexivity | discriminate]. }
  destruct (getitem row action) as [p|] eqn:Ep.
  2:{ repeat split; [eexists; reflexivity | ].
      intros row' p' [= <-]. rewrite Ep. discriminate. }
  cbv zeta.
  pose proof (effective_action_invalid (fst (random (rng self))) p action Hact)
    as Heff.
  unfold valid_action in Heff.
  destruct (_ =? 0) eqn:E0; [apply Z.eqb_eq in E0; tauto|].
  destruct (_ =? 1) eqn:E1; [apply Z.eqb_eq in E1; tauto|].
  repeat split; eexists; reflexivity.
Qed.

Lemma step_invalid_action_raises_witness :
  ~ valid_action (-1) /\
  is_Raise (fst (step (-1) default_engine)) /\
  snd (step (-1) default_engine) = counted default_engine /\
  position (snd (step (-1) default_engine)) = 2 /\
  current_steps (snd (step (-1) default_engine)) = 1 /\
  drawn (rng (snd (step (-1) default_engine))) = 1%nat /\
  is_InvalidAction (fst (step (-1) default_engine)).
Proof.
  assert (H : ~ valid_action (-1)) by (unfold valid_action; lia).
  destruct (step_invalid_action_raises default_engine (-1) H)
    as (H1 & H2 & H3 & H4 & _ & H6 & H7).
  split; [exact H|]. split; [exact H1|]. split; [exact H2|].
  split; [exact H3|]. split; [exact H4|]. split; [exact H6|].
  exact (H7 [1; 1]%Q 1%Q eq_refl eq_refl).
Defined.

(** C2 as stated fails on the default engine in both respects.  [step(2)]
    raises [IndexError] at the probability lookup, not the invalid-action
    error, and [step(-1)] does raise the invalid-action error; in both
    calls [current_steps] has gone from 0 to 1. *)
Lemma invalid_actions_break_the_contract :
  (~ rejects_without_mutation default_engine 2 /\
   fst (step 2 default_engine) = Raise (IndexError TransitionLookup) /\
   ~ is_InvalidAction (fst (step 2 default_engine)) /\
   current_steps default_engine = 0 /\
   current_steps (snd (step 2 default_engine)) = 1) /\
  (~ rejects_without_mutation default_engine (-1) /\
   fst (step (-1) default_engine) = Raise (RuntimeError (-1)) /\
   current_steps (snd (step (-1) default_engine)) = 1).
Proof.
  split.
  - split; [intros (_ & _ & H); vm_compute in H; discriminate H|].
    split; [reflexivity|].
    split; [intros [a H]; vm_compute in H; discriminate H|].
    split; reflexivity.
  - split; [intros (_ & _ & H); vm_compute in H; discriminate H|].
    split; reflexivity.
Qed.

(** What the default engine does on the invalid actions -1 and 2. *)
Lemma step_invalid_actions_default :
  fst (step (-1) default_engine) = Raise (RuntimeError (-1)) /\
  current_steps (snd (step (-1) default_engine)) = 1 /\
  fst (step 2 default_engine) = Raise (IndexError TransitionLookup) /\
  current_steps (snd (step 2 default_engine)) = 1.
Proof. repeat split. Qed.

(** ** [step] on valid actions *)

(** C5: for every engine state and valid action, one [step] adds exactly 1
    to [current_steps]; a returning call reports [terminated = false] and
    [truncated = true] exactly when the incremented count has reached the
    horizon; on a well-shaped engine with the rover on the track the call
    does return.  Consequently, after [reset], the call number [k + 1] of any
    run of valid actions, when it returns, reports [truncated = true]
    exactly when [k + 1 >= horizon] (for a positive horizon: first on the
    horizon-th call), and on a well-shaped engine every call returns. *)
Theorem step_counts_and_flags (self : MarsRover) :
  (forall action, valid_action action ->
     current_steps (snd (step action self)) = current_steps self + 1 /\
     (forall obs reward terminated truncated i,
        fst (step action self) = Ok (obs, reward, terminated, truncated, i) ->
        terminated = false /\
        (truncated = true <-> current_steps self + 1 >= horizon self)) /\
     (well_shaped self = true -> on_track self = true ->
      is_Ok (fst (step action self)))) /\
  (forall seed options acts, Forall valid_action acts ->
   forall (k : nat) r,
     outcomes acts (snd (reset seed options self)) !! k = Some r ->
     (forall obs reward terminated truncated i,
        r = Ok (obs, reward, terminated, truncated, i) ->
        terminated = false /\
        (truncated = true <-> Z.of_nat k + 1 >= horizon self)) /\
     (well_shaped self = true -> is_Ok r)).
Proof.
  split.
  - intros action Hact. split; [apply step_state|]. split.
    + intros obs reward terminated truncated i H.
      apply step_Ok in H as (row & p & _ & _ & _ & _ & _ & _ & -> & -> & _).
      split; [reflexivity|]. rewrite Z.geb_le. lia.
    + intros Hshape Htrack.
      destruct (step_returns self action Hshape Htrack Hact)
        as ((obs & reward & H) & _).
      eexists. exact H.
  - intros seed options acts Hacts k r Hr. split.
    + intros obs reward terminated truncated i ->.
      apply outcomes_Ok_flags in Hr as [-> ->].
      split; [reflexivity|].
      cbn [reset bind modify get ret snd current_steps horizon
           with_current_steps with_position].
      rewrite Z.geb_le. lia.
    + intros Hshape.
      assert (Hk : (k < length acts)%nat).
      { rewrite <- (length_outcomes acts (snd (reset seed options self))).
        apply lookup_lt_is_Some. eexists. exact Hr. }
      destruct (outcomes_flags acts (snd (reset seed options self))
                  Hshape eq_refl Hacts k Hk) as (obs & reward & H).
      rewrite H in Hr. injection Hr as <-. eexists. reflexivity.
Qed.

Lemma step_counts_and_flags_witness :
  valid_action 1 /\
  well_shaped default_engine = true /\ on_track default_engine = true /\
  current_steps (snd (step 1 default_engine)) = 1 /\
  is_Ok (fst (step 1 default_engine)) /\
  (false = true <-> 8 + 1 >= 10) /\
  (true = true <-> 9 + 1 >= 10) /\
  is_Ok (Ok (4, 10%Q, false, true, ([] : info))).
Proof.
  assert (Hact : valid_action 1) by (right; reflexivity).
  assert (Hacts : Forall valid_action (replicate 10 1))
    by (repeat constructor).
  destruct (step_counts_and_flags default_engine) as [Hstep Hrun].
  destruct (Hstep 1 Hact) as (Hcount & _ & Hret).
  destruct (Hrun None None (replicate 10 1) Hacts 8%nat
              (Ok (4, 10%Q, false, false, [])) eq_refl) as [Hflag8 _].
  destruct (Hrun None None (replicate 10 1) Hacts 9%nat
              (Ok (4, 10%Q, false, true, [])) eq_refl) as [Hflag9 Hret9].
  split; [exact Hact|]. split; [reflexivity|]. split; [reflexivity|].
  split; [exact Hcount|]. split; [exact (Hret eq_refl eq_refl)|].
  split; [exact (proj2 (Hflag8 _ _ _ _ _ eq_refl))|].
  split; [exact (proj2 (Hflag9 _ _ _ _ _ eq_refl))|].
  exact (Hret9 eq_refl).
Defined.

(** C6: for every engine state, valid action and draw, the reward a
    returning [step] reports is [rewards[p]], where [p] is the observation:
    the position after the move made by the (possibly flipped) action; on a
    well-shaped engine with the rover on the track the call does return. *)
Theorem step_reward_of_arrival (self : MarsRover) (action : Z) :
  valid_action action ->
  (forall obs reward terminated truncated i,
     fst (step action self) = Ok (obs, reward, terminated, truncated, i) ->
     exists row p,
       getitem (transition_probabilities self) (position self) = Some row /\
       getitem row action = Some p /\
       obs = arrival (position self)
               (effective_action (fst (random (rng self))) p action) /\
       position (snd (step action self)) = obs /\
       getitem (rewards self) obs = Some reward) /\
  (well_shaped self = true -> on_track self = true ->
   is_Ok (fst (step action self))).
Proof.
  intros Hact. split.
  - intros obs reward terminated truncated i H.
    apply step_Ok in H as (row & p & H1 & H2 & _ & H3 & H4 & H5 & _).
    exists row, p. auto.
  - intros Hshape Htrack.
    destruct (step_returns self action Hshape Htrack Hact)
      as ((obs & reward & H) & _).
    eexists. exact H.
Qed.

Lemma step_reward_of_arrival_witness :
  valid_action 1 /\
  fst (step 1 default_engine) = Ok (3, 0%Q, false, false, []) /\
  (exists row p,
     getitem (transition_probabilities default_engine) 2 = Some row /\
     getitem row 1 = Some p /\
     3 = arrival 2
           (effective_action (fst (random (rng default_engine))) p 1) /\
     position (snd (step 1 default_engine)) = 3 /\
     getitem (rewards default_engine) 3 = Some 0%Q) /\
  is_Ok (fst (step 1 default_engine)).
Proof.
  assert (Hact : valid_action 1) by (right; reflexivity).
  destruct (step_reward_of_arrival default_engine 1 Hact) as [Hrew Hret].
  split; [exact Hact|]. split; [reflexivity|].
  split; [exact (Hrew 3 0%Q false false [] eq_refl)|].
  exact (Hret eq_refl eq_refl).
Defined.

(** ** The right edge of the track is position 4, whatever the size *)

(** A returning [step] never reports a position right of 4. *)
Lemma step_never_passes_four (self : MarsRover) (action : Z)
    obs reward terminated truncated (i : info) :
  position self <= 4 ->
  fst (step action self) = Ok (obs, reward, terminated, truncated, i) ->
  obs <= 4.
Proof.
  intros Hpos H.
  apply step_Ok in H as (row & p & _ & _ & _ & -> & _).
  unfold arrival.
  destruct (_ =? 0); [destruct (_ >? 0) | destruct (_ <? 4) eqn:E]; lia.
Qed.

(** X9: with fewer than five rewards, a followed move to the right from the
    last state leaves the state space and [step] raises at the reward
    lookup, keeping the new position. *)
Lemma step_right_overruns_short_track (self : MarsRover) (row : list Q) (p : Q) :
  getitem (transition_probabilities self) (position self) = Some row ->
  getitem row 1 = Some p ->
  (fst (random (rng self)) < p)%Q ->
  position self = Z.of_nat (length (rewards self)) - 1 ->
  0 <= position self < 4 ->
  step 1 self
  = (Raise (IndexError RewardLookup),
     with_position (counted self) (position self + 1)).
Proof.
  intros Erow Ep Hu Hlast Hpos.
  rewrite step_eq, Erow, Ep. cbv zeta. unfold effective_action.
  rewrite (proj2 (Qltb_lt _ _) Hu). cbn [Z.eqb Pos.eqb].
  replace (position self <? 4) with true by lia.
  unfold report.
  cbn [position rewards with_position counted with_rng with_current_steps].
  rewrite getitem_out_of_range by lia. reflexivity.
Qed.

(** X10: in deterministic mode (every probability is 1) the requested action
    is the applied one: a returning [step(0)] from [s > 0] reports [s - 1],
    a returning [step(1)] from [s < 4] reports [s + 1], and from 4 it
    reports 4. *)
Lemma step_deterministic_mode (self : MarsRover) (action : Z)
    obs reward terminated truncated (i : info) :
  unit_interval (rng self) ->
  (forall row p, In row (transition_probabilities self) -> In p row ->
                 (p == 1)%Q) ->
  valid_action action ->
  fst (step action self) = Ok (obs, reward, terminated, truncated, i) ->
  (action = 0 -> position self > 0 -> obs = position self - 1) /\
  (action = 1 -> position self < 4 -> obs = position self + 1) /\
  (action = 1 -> position self >= 4 -> obs = position self).
Proof.
  intros Hu Hones Hact H.
  apply step_Ok in H as (row & p & Erow & Ep & _ & -> & _).
  assert (Hp : (p == 1)%Q).
  { apply (Hones row p); eapply getitem_Some_elem; eassumption. }
  assert (Hfollow : Qltb (fst (random (rng self))) p = true).
  { apply Qltb_lt. rewrite Hp. apply Hu. }
  unfold effective_action. rewrite Hfollow. unfold arrival.
  repeat split; intros -> Hpos; cbn [Z.eqb Pos.eqb].
  - replace (position self >? 0) with true by lia. reflexivity.
  - replace (position self <? 4) with true by lia. reflexivity.
  - replace (position self <? 4) with false by lia. reflexivity.
Qed.

(** C1 fails on a three-state engine: freshly constructed, the rover is at
    the last state 2; [step(1)] moves it to 3, outside [[0, 2]], and raises
    [IndexError] at the reward lookup instead of returning observation 2. *)
Theorem step_right_leaves_three_state_space :
  exists self,
    __init__ fixture_seeded (constant_draws 0) (ones 3) three_state_rewards
      default_horizon (Some 0) = Ok self /\
    position self = Z.of_nat (length (states self)) - 1 /\
    fst (step 1 self) = Raise (IndexError RewardLookup) /\
    position (snd (step 1 self)) = 3.
Proof. eexists. split; [reflexivity|]. repeat split. Qed.

(** C4 fails on a six-state engine in deterministic mode: after two moves
    to the right the rover is at 4 < 6 - 1, and [step(1)] returns
    observation 4, not 5. *)
Theorem step_right_stops_at_four_of_six :
  exists self,
    __init__ fixture_seeded (constant_draws 0) (ones 6) six_state_rewards
      default_horizon (Some 0) = Ok self /\
    position (after [1; 1] self) = 4 /\
    4 < Z.of_nat (length (states self)) - 1 /\
    fst (step 1 (after [1; 1] self)) = Ok (4, 0%Q, false, false, []).
Proof. eexists. split; [reflexivity|]. repeat split. Qed.

(** ** The transition tensor *)

Lemma length_arange (n : nat) : length (arange n) = n.
Proof. unfold arange. rewrite length_map. apply length_seq. Qed.

Lemma getitem_of_nat {A} (l : list A) (k : nat) :
  (k < length l)%nat -> getitem l (Z.of_nat k) = l !! k.
Proof.
  intros H. unfold getitem. rewrite py_index_nonneg by lia.
  rewrite Nat2Z.id. reflexivity.
Qed.

Lemma setitem_of_nat {A} (l : list A) (k : nat) (v : A) :
  (k < length l)%nat -> setitem l (Z.of_nat k) v = Some (<[k := v]> l).
Proof.
  intros H. unfold setitem. rewrite py_index_nonneg by lia.
  rewrite Nat2Z.id. reflexivity.
Qed.

Lemma setitem_in_range {A} (l : list A) (i : Z) (v : A) :
  0 <= i < Z.of_nat (length l) -> setitem l i v = Some (<[Z.to_nat i := v]> l).
Proof.
  intros H. unfold setitem. rewrite py_index_nonneg by lia. reflexivity.
Qed.

Lemma get_next_state_in_range (s a : Z) (S : list Z) :
  (1 <= length S)%nat -> 0 <= get_next_state s a S < Z.of_nat (length S).
Proof. unfold get_next_state. intros H. destruct (a =? 0); lia. Qed.

Lemma two_columns_lookup (P : list (list Q)) (k : nat) :
  two_columns P = true -> (k < length P)%nat ->
  exists p0 p1, P !! k = Some [p0; p1].
Proof.
  intros Hcols Hk.
  destruct (P !! k) as [row|] eqn:E; [|apply lookup_ge_None in E; lia].
  assert (Hlen : length row = 2%nat).
  { apply Nat.eqb_eq. apply (proj1 (forallb_forall _ _) Hcols).
    apply list_elem_of_In. eapply list_elem_of_lookup_2. exact E. }
  destruct row as [|p0 [|p1 [|]]]; try discriminate. eauto.
Qed.

Lemma pair_getitem {A} (x y : A) :
  getitem [x; y] 0 = Some x /\ getitem [x; y] 1 = Some y.
Proof. split; reflexivity. Qed.

Lemma pair_setitem {A} (x y v : A) :
  setitem [x; y] 0 v = Some [v; y] /\ setitem [x; y] 1 v = Some [x; v].
Proof. split; reflexivity. Qed.

(** One pass of the inner loop fills the plane of state [k]. *)
Lemma fill_plane (P : list (list Q)) (T : tensor) (k : nat) :
  two_columns P = true -> (k < length P)%nat ->
  length T = length P ->
  T !! k = Some (replicate 2 (replicate (length P) 0%Q)) ->
  foldl (fun T a =>
      result_bind T (fun T =>
        let s_next := get_next_state (Z.of_nat k) a (arange (length P)) in
        result_bind (or_raise (IndexError TransitionLookup)
                       (getitem2 P (Z.of_nat k) a))
          (fun probability =>
             or_raise (IndexError TensorStore)
               (setitem3 T (Z.of_nat k) a s_next probability))))
    (Ok T) (arange 2)
  = Ok (<[k := intended_plane P k]> T).
Proof.
  intros Hcols Hk HT Hzero.
  destruct (two_columns_lookup P k Hcols Hk) as (p0 & p1 & Erow).
  pose proof (get_next_state_in_range (Z.of_nat k) 0 (arange (length P)))
    as H0.
  pose proof (get_next_state_in_range (Z.of_nat k) 1 (arange (length P)))
    as H1.
  rewrite length_arange in H0, H1.
  specialize (H0 ltac:(lia)). specialize (H1 ltac:(lia)).
  unfold intended_plane, intended_row.
  set (n0 := get_next_state (Z.of_nat k) 0 (arange (length P))) in *.
  set (n1 := get_next_state (Z.of_nat k) 1 (arange (length P))) in *.
  assert (E0 : getitem2 P (Z.of_nat k) 0 = Some p0).
  { unfold getitem2. rewrite getitem_of_nat by exact Hk. rewrite Erow.
    reflexivity. }
  assert (E1 : getitem2 P (Z.of_nat k) 1 = Some p1).
  { unfold getitem2. rewrite getitem_of_nat by exact Hk. rewrite Erow.
    reflexivity. }
  change (arange 2) with [0; 1]. cbn [foldl result_bind]. cbv zeta.
  fold n0 n1. rewrite E0, E1. cbn [or_raise result_bind default from_option id].
  unfold setitem3 at 1.
  rewrite getitem_of_nat by lia. rewrite Hzero. cbn [replicate].
  rewrite (proj1 (pair_getitem _ _)).
  rewrite setitem_in_range by (rewrite length_replicate; lia).
  rewrite (proj1 (pair_setitem _ _ _)).
  rewrite setitem_of_nat by lia. cbn [or_raise result_bind].
  unfold setitem3.
  rewrite getitem_of_nat by (rewrite length_insert; lia).
  rewrite list_lookup_insert_eq by lia.
  rewrite (proj2 (pair_getitem _ _)).
  rewrite setitem_in_range by (rewrite length_replicate; lia).
  rewrite (proj2 (pair_setitem _ _ _)).
  rewrite setitem_of_nat by (rewrite length_insert; lia).
  rewrite list_insert_insert_eq. reflexivity.
Qed.

(** The outer loop, from state [k] on. *)
Lemma fill_tensor (P : list (list Q)) (m : nat) :
  two_columns P = true ->
  forall k : nat, (k + m = length P)%nat ->
  foldl (fun T s =>
    foldl (fun T a =>
      result_bind T (fun T =>
        let s_next := get_next_state s a (arange (length P)) in
        result_bind (or_raise (IndexError TransitionLookup) (getitem2 P s a))
          (fun probability =>
             or_raise (IndexError TensorStore)
               (setitem3 T s a s_next probability))))
      T (arange 2))
    (Ok (tensor_upto P k)) (map Z.of_nat (seq k m))
  = Ok (tensor_upto P (length P)).
Proof.
  intros Hcols. induction m as [|m IH]; intros k Hk.
  - replace k with (length P) by lia. reflexivity.
  - assert (Hlen : length (tensor_upto P k) = length P).
    { unfold tensor_upto. cbv zeta.
      rewrite length_app, length_fmap, length_seq, length_replicate. lia. }
    assert (Hzero : tensor_upto P k !! k
                    = Some (replicate 2 (replicate (length P) 0%Q))).
    { unfold tensor_upto. cbv zeta.
      rewrite lookup_app_r by (rewrite length_fmap, length_seq; lia).
      rewrite length_fmap, length_seq, Nat.sub_diag.
      apply lookup_replicate_2. lia. }
    pose proof (fill_plane P (tensor_upto P k) k Hcols ltac:(lia) Hlen Hzero)
      as Hfill.
    cbv zeta in Hfill. cbn [seq map foldl]. rewrite Hfill.
    replace (<[k:=intended_plane P k]> (tensor_upto P k))
      with (tensor_upto P (S k)); [apply IH; lia|].
    unfold tensor_upto. cbv zeta.
    rewrite insert_app_r_alt by (rewrite length_fmap, length_seq; lia).
    rewrite length_fmap, length_seq, Nat.sub_diag.
    replace (length P - k)%nat with (S (length P - S k)) by lia.
    rewrite seq_S, fmap_app, <- app_assoc. reflexivity.
Qed.

(** The tensor the constructor builds: in every row, the probability
    [P[s, a]] at the intended next state and 0 elsewhere. *)
Lemma get_transition_matrix_rows (P : list (list Q)) :
  two_columns P = true ->
  get_transition_matrix (arange (length P)) (arange 2) P
  = Ok (tensor_upto P (length P)) /\
  forall (s : nat) (a : Z) (p : Q),
    (s < length P)%nat -> valid_action a ->
    getitem2 P (Z.of_nat s) a = Some p ->
    transition_row (tensor_upto P (length P)) (Z.of_nat s) a
    = Some (intended_row (length P)
              (get_next_state (Z.of_nat s) a (arange (length P))) p).
Proof.
  intros Hcols. split.
  - unfold get_transition_matrix. rewrite !length_arange.
    change (zeros3 (length P) 2 (length P))
      with (replicate (length P) (replicate 2 (replicate (length P) 0%Q))).
    replace (replicate (length P) (replicate 2 (replicate (length P) 0%Q)))
      with (tensor_upto P 0)
      by (unfold tensor_upto; cbn; rewrite Nat.sub_0_r; reflexivity).
    apply (fill_tensor P (length P) Hcols 0%nat). lia.
  - intros s a p Hs Ha Hp.
    unfold transition_row, getitem2.
    assert (Hplane : tensor_upto P (length P) !! s = Some (intended_plane P s)).
    { unfold tensor_upto. cbv zeta.
      rewrite lookup_app_l by (rewrite length_fmap, length_seq; lia).
      rewrite list_lookup_fmap.
      rewrite (proj2 (lookup_seq 0 (length P) s s)) by (split; [reflexivity|lia]).
      reflexivity. }
    rewrite getitem_of_nat.
    2:{ unfold tensor_upto. cbv zeta.
        rewrite length_app, length_fmap, length_seq, length_replicate. lia. }
    rewrite Hplane. unfold intended_plane. cbv zeta.
    destruct Ha as [-> | ->].
    + rewrite (proj1 (pair_getitem _ _)), Hp. reflexivity.
    + rewrite (proj2 (pair_getitem _ _)), Hp. reflexivity.
Qed.

Lemma row_sum_replicate_zero (n : nat) : (row_sum (replicate n 0%Q) == 0)%Q.
Proof.
  induction n as [|n IH]; [reflexivity|].
  cbn [replicate row_sum foldr]. fold (row_sum (replicate n 0%Q)).
  rewrite IH. reflexivity.
Qed.

Lemma row_sum_intended_row (n : nat) (s_next : Z) (p : Q) :
  0 <= s_next < Z.of_nat n -> (row_sum (intended_row n s_next p) == p)%Q.
Proof.
  intros H. unfold intended_row.
  rewrite insert_replicate_lt by lia.
  unfold row_sum. rewrite foldr_app. cbn [foldr].
  fold (row_sum (replicate (n - S (Z.to_nat s_next)) 0%Q)).
  generalize (row_sum_replicate_zero (n - S (Z.to_nat s_next))).
  generalize (row_sum (replicate (n - S (Z.to_nat s_next)) 0%Q)).
  intros q Hq.
  induction (Z.to_nat s_next) as [|i IH]; cbn [replicate foldr].
  - rewrite Hq. ring.
  - rewrite IH. ring.
Qed.

(** X20: every row of the tensor sums to the probability of the intended
    move. *)
Lemma transition_rows_sum_to_P (P : list (list Q)) (s : nat) (a : Z) (p : Q) :
  two_columns P = true -> (s < length P)%nat -> valid_action a ->
  getitem2 P (Z.of_nat s) a = Some p ->
  exists T row,
    get_transition_matrix (arange (length P)) (arange 2) P = Ok T /\
    transition_row T (Z.of_nat s) a = Some row /\
    (row_sum row == p)%Q.
Proof.
  intros Hcols Hs Ha Hp.
  destruct (get_transition_matrix_rows P Hcols) as [HT Hrows].
  eexists. eexists. split; [exact HT|]. split; [exact (Hrows s a p Hs Ha Hp)|].
  apply row_sum_intended_row.
  pose proof (get_next_state_in_range (Z.of_nat s) a (arange (length P))) as H.
  rewrite length_arange in H. apply H. lia.
Qed.

(** C3 fails for the probabilities 1/2: the row [T[2][1]] built by the
    constructor holds 1/2 at the intended target and 0 elsewhere, and sums
    to 1/2, not to 1. *)
Theorem transition_row_sums_to_one_half :
  exists self,
    __init__ fixture_seeded (constant_draws 0) fair_coin_probabilities
      default_rewards default_horizon (Some 0) = Ok self /\
    transition_row (transition_matrix self) 2 1
    = Some [0; 0; 0; 1 # 2; 0]%Q /\
    (row_sum [0; 0; 0; 1 # 2; 0] == 1 # 2)%Q /\
    ~ (row_sum [0; 0; 0; 1 # 2; 0] == 1)%Q.
Proof.
  eexists. split; [reflexivity|]. split; [reflexivity|].
  split; [reflexivity|]. intros H. discriminate H.
Qed.

(** ** More on the movement rule *)

(** X1: whatever the state and the action, also outside their ranges, the next
    state of a non-empty state space lies in it. *)
Theorem get_next_state_in_state_space (s a : Z) (S : list Z) :
  S <> [] ->
  0 <= get_next_state s a S <= Z.of_nat (length S) - 1.
Proof.
  intros HS. destruct S as [|x S]; [congruence|].
  pose proof (get_next_state_in_range s a (x :: S)) as H.
  cbn [length] in *. lia.
Qed.

Lemma get_next_state_in_state_space_witness :
  arange 5 <> [] /\
  0 <= get_next_state 7 3 (arange 5) <= Z.of_nat (length (arange 5)) - 1.
Proof.
  assert (H : arange 5 <> []) by discriminate.
  split; [exact H|]. exact (get_next_state_in_state_space 7 3 (arange 5) H).
Defined.

(** X2: from a state of the space the rover moves by at most one state, to the
    left only for action 0 and to the right for every other action, and the
    rule preserves the order of states. *)
Theorem get_next_state_moves (s s' a : Z) (S : list Z) :
  0 <= s <= Z.of_nat (length S) - 1 ->
  (a = 0 -> get_next_state s a S = Z.max (s - 1) 0) /\
  (a <> 0 -> get_next_state s a S = Z.min (s + 1) (Z.of_nat (length S) - 1)) /\
  (s <= s' -> get_next_state s a S <= get_next_state s' a S).
Proof.
  intros Hs. unfold get_next_state. repeat split.
  - intros ->. cbn [Z.eqb]. lia.
  - intros Ha. replace (a =? 0) with false by lia. lia.
  - intros Hle. destruct (a =? 0); lia.
Qed.

Lemma get_next_state_moves_witness :
  0 <= 4 <= Z.of_nat (length (arange 5)) - 1 /\
  get_next_state 4 3 (arange 5) = Z.min (4 + 1) (Z.of_nat (length (arange 5)) - 1).
Proof.
  assert (H : 0 <= 4 <= Z.of_nat (length (arange 5)) - 1) by (cbn; lia).
  split; [exact H|].
  apply (proj1 (proj2 (get_next_state_moves 4 4 3 (arange 5) H))). lia.
Defined.

(** ** Runs of [step] *)

(** The engine a call of [step] leaves: counted, and moved by at most one
    position, never left of 0 and never to the right from 4 on. *)
Lemma step_leaves (self : MarsRover) (action : Z) :
  snd (step action self)
  = with_position (counted self) (position (snd (step action self))) /\
  (position (snd (step action self)) = position self \/
   (position self > 0 /\
    position (snd (step action self)) = position self - 1) \/
   (position self < 4 /\
    position (snd (step action self)) = position self + 1)).
Proof.
  rewrite step_eq.
  destruct (getitem (transition_probabilities self) (position self))
    as [row|].
  2:{ split; [destruct self; reflexivity | left; reflexivity]. }
  destruct (getitem row action) as [p|].
  2:{ split; [destruct self; reflexivity | left; reflexivity]. }
  cbv zeta.
  destruct (_ =? 0).
  { rewrite report_state. destruct (position self >? 0) eqn:E.
    - split; [reflexivity|]. right. left. cbn. lia.
    - split; [destruct self; reflexivity | left; reflexivity]. }
  destruct (_ =? 1).
  { rewrite report_state. destruct (position self <? 4) eqn:E.
    - split; [reflexivity|]. right. right. cbn. lia.
    - split; [destruct self; reflexivity | left; reflexivity]. }
  split; [destruct self; reflexivity | left; reflexivity].
Qed.

Lemma after_cons (a : Z) (acts : list Z) (self : MarsRover) :
  after (a :: acts) self = after acts (snd (step a self)).
Proof. reflexivity. Qed.

(** X3: a rover on the track [0..4] stays on it through every sequence of
    [step] calls, whatever the actions (valid or not) and whether the calls
    return or raise. *)
Theorem run_stays_on_track (acts : list Z) (self : MarsRover) :
  on_track self = true -> on_track (after acts self) = true.
Proof.
  revert self. induction acts as [|a acts IH]; intros self H; [exact H|].
  rewrite after_cons. apply IH.
  apply on_track_inv in H. apply on_track_inv.
  destruct (step_leaves self a) as [_ Hpos]. lia.
Qed.

Lemma run_stays_on_track_witness :
  on_track default_engine = true /\
  on_track (after [1; 1; 1; 7; 0; -1] default_engine) = true.
Proof.
  split; [reflexivity|].
  exact (run_stays_on_track [1; 1; 1; 7; 0; -1] default_engine eq_refl).
Defined.

(** A sequence of [step] calls changes the position, the step count and
    the generator only. *)
Lemma after_frame (acts : list Z) (self : MarsRover) :
  after acts self
  = with_rng
      (with_position
         (with_current_steps self
            (current_steps self + Z.of_nat (length acts)))
         (position (after acts self)))
      (advanced (rng self) (length acts)).
Proof.
  revert self. induction acts as [|a acts IH]; intros self.
  - destruct self as [R P c h p OS AS S A T [d n]]. cbn.
    unfold advanced. cbn. rewrite Z.add_0_r, Nat.add_0_r. reflexivity.
  - rewrite after_cons, IH.
    destruct (step_leaves self a) as [Hs _].
    set (q := position (snd (step a self))) in Hs. clearbody q.
    rewrite Hs. clear Hs.
    destruct self as [R P c h p OS AS S A T [d n]].
    cbv [with_rng with_position with_current_steps counted advanced random
         rewards transition_probabilities current_steps horizon
         observation_space action_space
         states actions transition_matrix rng draws drawn snd length].
    f_equal; [lia | f_equal; lia].
Qed.

(** X4: through every sequence of [step] calls the tables, the horizon and
    the derived arrays stay as constructed, and both the step count and the
    number of draws grow by the number of calls, failing calls included:
    every call draws exactly one number. *)
Theorem run_frame (acts : list Z) (self : MarsRover) :
  rewards (after acts self) = rewards self /\
  transition_probabilities (after acts self)
  = transition_probabilities self /\
  horizon (after acts self) = horizon self /\
  states (after acts self) = states self /\
  actions (after acts self) = actions self /\
  transition_matrix (after acts self) = transition_matrix self /\
  current_steps (after acts self)
  = current_steps self + Z.of_nat (length acts) /\
  draws (rng (after acts self)) = draws (rng self) /\
  drawn (rng (after acts self)) = (drawn (rng self) + length acts)%nat.
Proof.
  rewrite (after_frame acts self). repeat split.
Qed.

(** X5: [reset] after a run gives the engine [reset] gives at once, except
    for the generator, which is not reseeded: the next episode continues
    the draw sequence where the run left it. *)
Theorem reset_after_run
    (acts : list Z) (self : MarsRover) (seed : option Z)
    (options : option info) :
  snd (reset seed options (after acts self))
  = with_rng (snd (reset seed options self))
      (advanced (rng self) (length acts)).
Proof.
  rewrite (after_frame acts self).
  destruct self as [R P c h p OS AS S A T g]. reflexivity.
Qed.

(** ** [step] on negative actions *)

Lemma getitem_below_range {A} (l : list A) (i : Z) :
  i < - Z.of_nat (length l) -> getitem l i = None.
Proof.
  intros H. unfold getitem. rewrite py_index_None by (right; exact H).
  reflexivity.
Qed.

Lemma two_columns_row (P : list (list Q)) (i : Z) (row : list Q) :
  two_columns P = true -> getitem P i = Some row ->
  exists p0 p1, row = [p0; p1].
Proof.
  intros Hcols Erow.
  assert (Hlen : length row = 2%nat).
  { apply Nat.eqb_eq.
    exact (proj1 (forallb_forall _ _) Hcols row (getitem_Some_elem _ _ _ Erow)). }
  destruct row as [|p0 [|p1 [|]]]; try discriminate. eauto.
Qed.

(** X6: on a two-column table every action [a <= -3] makes [step] raise
    [IndexError] at the probability lookup, like the actions [a >= 2]: the
    call has been counted, the position is untouched. *)
Theorem step_action_below_minus_two_IndexError
    (self : MarsRover) (action : Z) :
  two_columns (transition_probabilities self) = true ->
  action <= -3 ->
  step action self = (Raise (IndexError TransitionLookup), counted self).
Proof.
  intros Hcols Hact. rewrite step_eq.
  destruct (getitem (transition_probabilities self) (position self))
    as [row|] eqn:Erow; [|reflexivity].
  destruct (two_columns_row _ _ _ Hcols Erow) as (p0 & p1 & ->).
  rewrite getitem_below_range by (cbn; lia). reflexivity.
Qed.

Lemma step_action_below_minus_two_IndexError_witness :
  step (-3) default_engine
  = (Raise (IndexError TransitionLookup), counted default_engine).
Proof.
  apply (step_action_below_minus_two_IndexError default_engine (-3)).
  - reflexivity.
  - lia.
Defined.

(** X7: the actions -1 and -2 pass the probability lookup, because a
    negative index counts from the end: -1 reads the column of action 1 and
    -2 the column of action 0.  The call then raises the invalid-action
    [RuntimeError], naming the action itself when the draw is below that
    probability and the flipped value [1 - action] (2 or 3) otherwise. *)
Theorem step_negative_action_wraps
    (self : MarsRover) (action : Z) (row : list Q) :
  two_columns (transition_probabilities self) = true ->
  getitem (transition_probabilities self) (position self) = Some row ->
  action = -1 \/ action = -2 ->
  exists p,
    getitem row (action + 2) = Some p /\
    step action self
    = (Raise (RuntimeError
                (if Qltb (fst (random (rng self))) p
                 then action else 1 - action)),
       counted self).
Proof.
  intros Hcols Erow Hact. rewrite step_eq, Erow.
  destruct (two_columns_row _ _ _ Hcols Erow) as (p0 & p1 & ->).
  destruct Hact as [-> | ->].
  - exists p1. split; [reflexivity|].
    change (getitem [p0; p1] (-1)) with (Some p1).
    cbv zeta. unfold effective_action.
    destruct (Qltb _ p1); reflexivity.
  - exists p0. split; [reflexivity|].
    change (getitem [p0; p1] (-2)) with (Some p0).
    cbv zeta. unfold effective_action.
    destruct (Qltb _ p0); reflexivity.
Qed.

Lemma step_negative_action_wraps_witness :
  exists p,
    getitem [1; 1]%Q (-2 + 2) = Some p /\
    step (-2) default_engine
    = (Raise (RuntimeError
                (if Qltb (fst (random (rng default_engine))) p
                 then -2 else 1 - -2)),
       counted default_engine).
Proof.
  apply (step_negative_action_wraps default_engine (-2) [1; 1]%Q).
  - reflexivity.
  - reflexivity.
  - right. reflexivity.
Defined.

(** ** [step] and the size of the table *)

(** X8: an engine whose table has at most two rows cannot step from the
    start position: after [reset] (and so on the freshly constructed
    engine) every [step], whatever the action, raises [IndexError] at the
    probability lookup, since position 2 is no row of the table. *)
Theorem step_from_start_of_small_engine
    (self : MarsRover) (seed : option Z) (options : option info)
    (action : Z) :
  (length (transition_probabilities self) <= 2)%nat ->
  fst (step action (snd (reset seed options self)))
  = Raise (IndexError TransitionLookup) /\
  position (snd (step action (snd (reset seed options self)))) = 2.
Proof.
  intros Hn. rewrite step_eq.
  cbn [reset bind modify get ret snd position transition_probabilities
       with_position with_current_steps].
  rewrite getitem_out_of_range by lia. split; reflexivity.
Qed.

Lemma small_engines_constructed (entropy : nat -> Q) :
  __init__ fixture_seeded entropy (ones 2) [1; 10]%Q default_horizon (Some 0)
  = Ok two_state_engine /\
  __init__ fixture_seeded entropy (ones 3) three_state_rewards
    default_horizon (Some 0)
  = Ok three_state_engine.
Proof. split; reflexivity. Qed.

Lemma step_from_start_of_small_engine_witness :
  (length (transition_probabilities two_state_engine) <= 2)%nat /\
  fst (step 1 (snd (reset None None two_state_engine)))
  = Raise (IndexError TransitionLookup) /\
  position (snd (step 1 (snd (reset None None two_state_engine)))) = 2.
Proof.
  assert (H : (length (transition_probabilities two_state_engine) <= 2)%nat)
    by (cbn; lia).
  split; [exact H|].
  exact (step_from_start_of_small_engine two_state_engine None None 1 H).
Defined.

Lemma unit_interval_default : unit_interval (rng default_engine).
Proof. intros i. split; [discriminate | reflexivity]. Qed.

Lemma all_probabilities_ones (n : nat) : all_probabilities 1 (ones n).
Proof.
  intros row p Hrow Hp. unfold ones in Hrow.
  apply list_elem_of_In, elem_of_replicate in Hrow as [-> _].
  cbn in Hp. destruct Hp as [<- | [<- | []]]; reflexivity.
Qed.

Lemma step_right_overruns_short_track_witness :
  step 1 three_state_engine
  = (Raise (IndexError RewardLookup),
     with_position (counted three_state_engine) 3).
Proof.
  apply (step_right_overruns_short_track three_state_engine [1; 1]%Q 1%Q).
  - reflexivity.
  - reflexivity.
  - reflexivity.
  - reflexivity.
  - cbn. lia.
Defined.

Lemma step_deterministic_mode_witness :
  fst (step 1 default_engine) = Ok (3, 0%Q, false, false, []) /\
  (1 = 1 -> 2 < 4 -> 3 = 2 + 1).
Proof.
  split; [reflexivity|].
  exact (proj1 (proj2 (step_deterministic_mode default_engine 1 3 0%Q false
                         false [] unit_interval_default
                         (all_probabilities_ones 5)
                         (or_intror eq_refl) eq_refl))).
Defined.

(** X11: when every probability of the table is 0 the requested action is
    never the applied one: a returning [step(0)] moves the rover to the
    right (from [s < 4] to [s + 1]) and a returning [step(1)] to the left
    (from [s > 0] to [s - 1]), whatever the draws in [[0, 1)]. *)
Theorem step_always_flipped (self : MarsRover) (action : Z)
    obs reward terminated truncated (i : info) :
  unit_interval (rng self) ->
  all_probabilities 0 (transition_probabilities self) ->
  valid_action action ->
  fst (step action self) = Ok (obs, reward, terminated, truncated, i) ->
  (action = 0 -> position self < 4 -> obs = position self + 1) /\
  (action = 0 -> position self >= 4 -> obs = position self) /\
  (action = 1 -> position self > 0 -> obs = position self - 1).
Proof.
  intros Hu Hzero Hact H.
  apply step_Ok in H as (row & p & Erow & Ep & _ & -> & _).
  assert (Hp : (p == 0)%Q).
  { apply (Hzero row p); eapply getitem_Some_elem; eassumption. }
  assert (Hflip : Qltb (fst (random (rng self))) p = false).
  { destruct (Qltb _ p) eqn:E; [|reflexivity].
    apply Qltb_lt in E. rewrite Hp in E.
    destruct (Hu (drawn (rng self))) as [H0 _].
    exfalso. exact (Qlt_not_le _ _ E H0). }
  unfold effective_action. rewrite Hflip. unfold arrival.
  repeat split; intros -> Hpos; cbn [Z.sub Z.add Z.opp Z.eqb Pos.eqb].
  - replace (position self <? 4) with true by lia. reflexivity.
  - replace (position self <? 4) with false by lia. reflexivity.
  - replace (position self >? 0) with true by lia. reflexivity.
Qed.

Lemma contrary_engine_constructed (entropy : nat -> Q) :
  __init__ fixture_seeded entropy (replicate 5 [0; 0]%Q) default_rewards
    default_horizon (Some 0)
  = Ok contrary_engine.
Proof. reflexivity. Qed.

Lemma step_always_flipped_witness :
  fst (step 0 contrary_engine) = Ok (3, 0%Q, false, false, []) /\
  (0 = 0 -> 2 < 4 -> 3 = 2 + 1).
Proof.
  split; [reflexivity|].
  assert (Hzero : all_probabilities 0
                    (transition_probabilities contrary_engine)).
  { intros row p Hrow Hp.
    apply list_elem_of_In, elem_of_replicate in Hrow as [-> _].
    cbn in Hp. destruct Hp as [<- | [<- | []]]; reflexivity. }
  exact (proj1 (step_always_flipped contrary_engine 0 3 0%Q false false []
                  unit_interval_default Hzero (or_introl eq_refl) eq_refl)).
Defined.

(** ** [step] and [get_next_state] *)

Lemma arrival_five (pos eff : Z) (S : list Z) :
  length S = 5%nat -> 0 <= pos <= 4 -> valid_action eff ->
  arrival pos eff = get_next_state pos eff S.
Proof.
  intros HS Hpos [-> | ->]; unfold arrival, get_next_state; rewrite HS;
    cbn [Z.eqb Pos.eqb].
  - destruct (pos >? 0) eqn:E; lia.
  - destruct (pos <? 4) eqn:E; lia.
Qed.

(** X12: on an engine of five states with the rover on the track, the
    observation a returning [step] reports is the state
    [get_next_state] computes for the position and the applied action:
    with five states the two movement rules agree. *)
Theorem step_follows_get_next_state (self : MarsRover) (action : Z)
    obs reward terminated truncated (i : info) :
  length (states self) = 5%nat ->
  on_track self = true ->
  fst (step action self) = Ok (obs, reward, terminated, truncated, i) ->
  exists row p,
    getitem (transition_probabilities self) (position self) = Some row /\
    getitem row action = Some p /\
    obs = get_next_state (position self)
            (effective_action (fst (random (rng self))) p action)
            (states self).
Proof.
  intros HS Htrack H. apply on_track_inv in Htrack.
  apply step_Ok in H as (row & p & Erow & Ep & Heff & -> & _).
  exists row, p. split; [exact Erow|]. split; [exact Ep|].
  apply arrival_five; assumption.
Qed.

Lemma step_follows_get_next_state_witness :
  exists row p,
    getitem (transition_probabilities default_engine) 2 = Some row /\
    getitem row 1 = Some p /\
    3 = get_next_state 2
          (effective_action (fst (random (rng default_engine))) p 1)
          (states default_engine).
Proof.
  exact (step_follows_get_next_state default_engine 1 3 0%Q false false []
           eq_refl eq_refl eq_refl).
Defined.

(** ** Episodes in deterministic mode *)

Lemma unit_interval_advanced (g : Generator) (k : nat) :
  unit_interval g -> unit_interval (advanced g k).
Proof. intros H i. exact (H i). Qed.

(** With every probability 1, a call of [step] does not depend on the
    generator, beyond its draws lying in [[0, 1)]. *)
Lemma step_deterministic_any_generator
    (self : MarsRover) (g : Generator) (action : Z) :
  unit_interval (rng self) -> unit_interval g ->
  all_probabilities 1 (transition_probabilities self) ->
  fst (step action (with_rng self g)) = fst (step action self) /\
  snd (step action (with_rng self g))
  = with_rng (snd (step action self)) (snd (random g)).
Proof.
  intros Hu Hg Hones. rewrite !step_eq.
  cbn [with_rng transition_probabilities position rng].
  destruct (getitem (transition_probabilities self) (position self))
    as [row|] eqn:Erow.
  2:{ split; [reflexivity|]. destruct self; reflexivity. }
  destruct (getitem row action) as [p|] eqn:Ep.
  2:{ split; [reflexivity|]. destruct self; reflexivity. }
  assert (Hp : (p == 1)%Q).
  { apply (Hones row p); eapply getitem_Some_elem; eassumption. }
  cbv zeta. unfold effective_action.
  rewrite (proj2 (Qltb_lt (fst (random g)) p))
    by (rewrite Hp; apply Hg).
  rewrite (proj2 (Qltb_lt (fst (random (rng self))) p))
    by (rewrite Hp; apply Hu).
  destruct self as [R P c h pos OS AS S A T g0].
  cbn [position]. unfold report.
  destruct (action =? 0).
  { destruct (pos >? 0); cbn; destruct (getitem R _); split; reflexivity. }
  destruct (action =? 1).
  { destruct (pos <? 4); cbn; destruct (getitem R _); split; reflexivity. }
  split; reflexivity.
Qed.

Lemma outcomes_deterministic_any_generator (acts : list Z) :
  forall (self : MarsRover) (g : Generator),
  unit_interval (rng self) -> unit_interval g ->
  all_probabilities 1 (transition_probabilities self) ->
  outcomes acts (with_rng self g) = outcomes acts self.
Proof.
  induction acts as [|a acts IH]; intros self g Hu Hg Hones; [reflexivity|].
  destruct (step_deterministic_any_generator self g a Hu Hg Hones)
    as [Hfst Hsnd].
  pose proof (step_state self a) as (_ & _ & HP & _ & Hrng).
  cbn [outcomes].
  destruct (step a (with_rng self g)) as [r1 s1].
  destruct (step a self) as [r2 s2].
  cbn [fst snd] in *. subst r1 s1. f_equal.
  apply IH.
  - rewrite Hrng. intros i. exact (Hu i).
  - intros i. exact (Hg i).
  - rewrite HP. exact Hones.
Qed.

(** X13: in deterministic mode (every probability 1, draws in [[0, 1)])
    episodes repeat: after any earlier run, [reset] followed by an action
    sequence gives the same outcomes as the same sequence after a [reset]
    of the untouched engine, although the generator has moved on. *)
Theorem deterministic_episodes_repeat
    (self : MarsRover) (earlier acts : list Z)
    (seed : option Z) (options : option info) :
  unit_interval (rng self) ->
  all_probabilities 1 (transition_probabilities self) ->
  outcomes acts (snd (reset seed options (after earlier self)))
  = outcomes acts (snd (reset seed options self)).
Proof.
  intros Hu Hones.
  rewrite (after_frame earlier self).
  replace (snd (reset seed options _))
    with (with_rng (snd (reset seed options self))
            (advanced (rng self) (length earlier)))
    by (destruct self; reflexivity).
  apply outcomes_deterministic_any_generator.
  - exact Hu.
  - apply unit_interval_advanced. exact Hu.
  - exact Hones.
Qed.

Lemma deterministic_episodes_repeat_witness :
  outcomes [1; 0; 0]
    (snd (reset None None (after [1; 1; 5] default_engine)))
  = outcomes [1; 0; 0] (snd (reset None None default_engine)).
Proof.
  exact (deterministic_episodes_repeat default_engine [1; 1; 5] [1; 0; 0]
           None None unit_interval_default (all_probabilities_ones 5)).
Defined.

(** ** [get_reward_per_action] *)

Lemma get_reward_per_action_eq (self : MarsRover) :
  get_reward_per_action self
  = foldl (fun acc s =>
             foldl (reward_cell self s) acc (arange (length (actions self))))
      (Ok (zeros2 (length (states self)) (length (actions self))))
      (arange (length (states self))).
Proof. reflexivity. Qed.

Lemma get_next_state_length (s a : Z) (S S' : list Z) :
  length S = length S' -> get_next_state s a S = get_next_state s a S'.
Proof. unfold get_next_state. intros ->. reflexivity. Qed.

Lemma s_index_get_next_state (s a : Z) (S : list Z) :
  Z.max 0 (Z.min (Z.of_nat (length S) - 1) (s + (if a =? 0 then -1 else 1)))
  = get_next_state s a S.
Proof. unfold get_next_state. destruct (a =? 0); lia. Qed.

Lemma arange_S (n : nat) : arange (S n) = arange n ++ [Z.of_nat n].
Proof. unfold arange. rewrite seq_S, map_app. reflexivity. Qed.

(** One pass of the inner loop fills the row of state [k]. *)
Lemma fill_reward_row (self : MarsRover) (M : list (list Q)) (k : nat) :
  (k < length (states self))%nat ->
  (length (states self) <= length (rewards self))%nat ->
  length M = length (states self) ->
  M !! k = Some (replicate 2 0%Q) ->
  foldl (reward_cell self (Z.of_nat k)) (Ok M) (arange 2)
  = Ok (<[k := reward_row (rewards self) (length (states self)) k]> M).
Proof.
  intros Hk HR HM Hzero.
  set (n := length (states self)) in *.
  assert (Hgns : forall a,
             get_next_state (Z.of_nat k) a (states self)
             = get_next_state (Z.of_nat k) a (arange n)).
  { intros a. apply get_next_state_length. rewrite length_arange.
    reflexivity. }
  assert (Hr : forall a, exists r,
             getitem (rewards self) (get_next_state (Z.of_nat k) a (arange n))
             = Some r).
  { intros a. apply getitem_in_range.
    pose proof (get_next_state_in_range (Z.of_nat k) a (arange n)) as H.
    rewrite length_arange in H. lia. }
  destruct (Hr 0) as [r0 E0]. destruct (Hr 1) as [r1 E1].
  unfold reward_row. fold n. rewrite E0, E1. cbn [default from_option id].
  change (arange 2) with [0; 1]. cbn [foldl].
  unfold reward_cell at 2. cbn [result_bind]. cbv zeta.
  rewrite s_index_get_next_state, Hgns, E0. cbn [or_raise result_bind].
  unfold setitem2. rewrite getitem_of_nat by lia. rewrite Hzero.
  cbn [replicate]. rewrite (proj1 (pair_setitem _ _ _)).
  rewrite setitem_of_nat by lia. cbn [or_raise].
  unfold reward_cell. cbn [result_bind]. cbv zeta.
  rewrite s_index_get_next_state, Hgns, E1. cbn [or_raise result_bind].
  unfold setitem2. rewrite getitem_of_nat by (rewrite length_insert; lia).
  rewrite list_lookup_insert_eq by lia.
  rewrite (proj2 (pair_setitem _ _ _)).
  rewrite setitem_of_nat by (rewrite length_insert; lia).
  rewrite list_insert_insert_eq. reflexivity.
Qed.

Lemma fill_rewards (self : MarsRover) (m : nat) :
  (length (states self) <= length (rewards self))%nat ->
  forall k : nat, (k + m = length (states self))%nat ->
  foldl (fun acc s => foldl (reward_cell self s) acc (arange 2))
    (Ok (rewards_upto (rewards self) (length (states self)) k))
    (map Z.of_nat (seq k m))
  = Ok (rewards_upto (rewards self) (length (states self))
          (length (states self))).
Proof.
  intros HR. set (n := length (states self)).
  induction m as [|m IH]; intros k Hk.
  - replace k with n by lia. reflexivity.
  - assert (Hlen : length (rewards_upto (rewards self) n k) = n).
    { unfold rewards_upto.
      rewrite length_app, length_fmap, length_seq, length_replicate. lia. }
    assert (Hzero : rewards_upto (rewards self) n k !! k
                    = Some (replicate 2 0%Q)).
    { unfold rewards_upto.
      rewrite lookup_app_r by (rewrite length_fmap, length_seq; lia).
      rewrite length_fmap, length_seq, Nat.sub_diag.
      apply lookup_replicate_2. lia. }
    cbn [seq map foldl].
    rewrite (fill_reward_row self _ k ltac:(fold n; lia) HR Hlen Hzero).
    fold n.
    replace (<[k:=reward_row (rewards self) n k]>
               (rewards_upto (rewards self) n k))
      with (rewards_upto (rewards self) n (S k)); [apply IH; lia|].
    unfold rewards_upto.
    rewrite insert_app_r_alt by (rewrite length_fmap, length_seq; lia).
    rewrite length_fmap, length_seq, Nat.sub_diag.
    replace (n - k)%nat with (S (n - S k)) by lia.
    rewrite seq_S, fmap_app, <- app_assoc. reflexivity.
Qed.

Lemma length_rewards_upto (R : list Q) (n k : nat) :
  (k <= n)%nat -> length (rewards_upto R n k) = n.
Proof.
  intros Hk. unfold rewards_upto.
  rewrite length_app, length_fmap, length_seq, length_replicate. lia.
Qed.

Lemma get_reward_per_action_upto (self : MarsRover) :
  length (actions self) = 2%nat ->
  (length (states self) <= length (rewards self))%nat ->
  get_reward_per_action self
  = Ok (rewards_upto (rewards self) (length (states self))
          (length (states self))).
Proof.
  intros HA HR. set (n := length (states self)).
  rewrite get_reward_per_action_eq, HA. fold n.
  replace (zeros2 n 2) with (rewards_upto (rewards self) n 0)
    by (unfold rewards_upto, zeros2; cbn; rewrite Nat.sub_0_r; reflexivity).
  apply (fill_rewards self n HR 0%nat). reflexivity.
Qed.

Lemma rewards_upto_lookup (R : list Q) (S : list Z) (s : nat) (a : Z) :
  (length S <= length R)%nat -> (s < length S)%nat -> valid_action a ->
  exists reward,
    getitem R (get_next_state (Z.of_nat s) a S) = Some reward /\
    getitem2 (rewards_upto R (length S) (length S)) (Z.of_nat s) a
    = Some reward.
Proof.
  intros HR Hs Ha. set (n := length S) in *.
  assert (Hin : 0 <= get_next_state (Z.of_nat s) a S
                < Z.of_nat (length R)).
  { pose proof (get_next_state_in_range (Z.of_nat s) a S) as H.
    fold n in H. lia. }
  destruct (getitem_in_range _ _ Hin) as [reward Er].
  exists reward. split; [exact Er|].
  unfold getitem2.
  rewrite getitem_of_nat by (rewrite length_rewards_upto; lia).
  unfold rewards_upto.
  rewrite lookup_app_l by (rewrite length_fmap, length_seq; lia).
  rewrite list_lookup_fmap.
  rewrite (proj2 (lookup_seq 0 n s s)) by (split; [reflexivity|lia]).
  cbn [fmap option_fmap option_map]. unfold reward_row.
  rewrite <- !(get_next_state_length _ _ S (arange n))
    by (rewrite length_arange; reflexivity).
  destruct Ha as [-> | ->].
  - rewrite (proj1 (pair_getitem _ _)), Er. reflexivity.
  - rewrite (proj2 (pair_getitem _ _)), Er. reflexivity.
Qed.

(** X14: with two actions and a reward for every state, the reward matrix is
    built without error, has one row per state, and its entry for state [s]
    and action [a] is the reward of the state the movement rule
    [get_next_state] leads to. *)
Theorem get_reward_per_action_entries (self : MarsRover) :
  length (actions self) = 2%nat ->
  (length (states self) <= length (rewards self))%nat ->
  exists R_sa,
    get_reward_per_action self = Ok R_sa /\
    length R_sa = length (states self) /\
    forall (s : nat) (a : Z),
      (s < length (states self))%nat -> valid_action a ->
      exists reward,
        getitem (rewards self) (get_next_state (Z.of_nat s) a (states self))
        = Some reward /\
        getitem2 R_sa (Z.of_nat s) a = Some reward.
Proof.
  intros HA HR. eexists.
  split; [exact (get_reward_per_action_upto self HA HR)|].
  split; [apply length_rewards_upto; lia|].
  intros s a Hs Ha. exact (rewards_upto_lookup _ _ s a HR Hs Ha).
Qed.

Lemma get_reward_per_action_entries_witness :
  exists R_sa,
    get_reward_per_action default_engine = Ok R_sa /\
    length R_sa = length (states default_engine) /\
    forall (s : nat) (a : Z),
      (s < length (states default_engine))%nat -> valid_action a ->
      exists reward,
        getitem (rewards default_engine)
          (get_next_state (Z.of_nat s) a (states default_engine))
        = Some reward /\
        getitem2 R_sa (Z.of_nat s) a = Some reward.
Proof.
  apply (get_reward_per_action_entries default_engine).
  - reflexivity.
  - cbn. lia.
Defined.

(** The reward matrix of the default engine. *)
Lemma get_reward_per_action_default :
  get_reward_per_action default_engine
  = Ok [ [1; 0]; [1; 0]; [0; 0]; [0; 10]; [0; 10] ]%Q.
Proof. reflexivity. Qed.

Lemma reward_cell_kind (self : MarsRover) (s a : Z)
    (acc : result (list (list Q))) :
  Ok_or_IndexError acc -> Ok_or_IndexError (reward_cell self s acc a).
Proof.
  destruct acc as [M|e]; [intros _ | exact (fun H => H)].
  unfold reward_cell. cbn [result_bind]. cbv zeta.
  destruct (getitem (rewards self) _); cbn; [|eauto].
  destruct (setitem2 M s a _); cbn; eauto.
Qed.

Lemma foldl_invariant {A B} (I : A -> Prop) (f : A -> B -> A) (l : list B) :
  (forall acc x, I acc -> I (f acc x)) ->
  forall acc, I acc -> I (foldl f acc l).
Proof.
  intros Hf. induction l as [|x l IH]; intros acc Hacc; [exact Hacc|].
  cbn [foldl]. apply IH, Hf, Hacc.
Qed.

(** X15: with fewer rewards than states the reward matrix cannot be built:
    [get_reward_per_action] raises [IndexError]. *)
Theorem get_reward_per_action_short_rewards (self : MarsRover) :
  length (actions self) = 2%nat ->
  (length (rewards self) < length (states self))%nat ->
  is_IndexError (get_reward_per_action self).
Proof.
  intros HA HR. rewrite get_reward_per_action_eq, HA.
  destruct (length (states self)) as [|m] eqn:En; [lia|].
  rewrite (arange_S m), foldl_app. cbn [foldl].
  set (acc := foldl _ _ (arange m)).
  assert (Hacc : Ok_or_IndexError acc).
  { apply foldl_invariant; [|exact I].
    intros acc' s Hacc'. apply foldl_invariant; [|exact Hacc'].
    intros acc'' a. apply reward_cell_kind. }
  change (arange 2) with [0; 1]. cbn [foldl].
  pose proof (reward_cell_kind self (Z.of_nat m) 0 acc Hacc) as H0.
  destruct (reward_cell self (Z.of_nat m) acc 0) as [M|e].
  - unfold reward_cell. cbn [result_bind]. cbv zeta.
    rewrite getitem_out_of_range by (rewrite En; cbn [Z.eqb]; lia).
    eexists. reflexivity.
  - destruct H0 as [at_ ->]. eexists. reflexivity.
Qed.

Lemma get_reward_per_action_short_rewards_witness :
  __init__ fixture_seeded (constant_draws 0) default_transition_probabilities
    [1; 0]%Q default_horizon (Some 0) = Ok underpaid_engine /\
  is_IndexError (get_reward_per_action underpaid_engine).
Proof.
  split; [reflexivity|].
  apply (get_reward_per_action_short_rewards underpaid_engine).
  - reflexivity.
  - cbn. lia.
Defined.

(** X16: on an engine of five states, two actions and at least five
    rewards, with the rover on the track, the reward a returning [step]
    reports is the entry of the reward matrix of [get_reward_per_action]
    for the position before the call and the applied action. *)
Theorem step_reward_in_reward_matrix (self : MarsRover) (action : Z)
    obs reward terminated truncated (i : info) :
  length (states self) = 5%nat ->
  length (actions self) = 2%nat ->
  (5 <= length (rewards self))%nat ->
  on_track self = true ->
  fst (step action self) = Ok (obs, reward, terminated, truncated, i) ->
  exists R_sa row p,
    get_reward_per_action self = Ok R_sa /\
    getitem (transition_probabilities self) (position self) = Some row /\
    getitem row action = Some p /\
    getitem2 R_sa (position self)
      (effective_action (fst (random (rng self))) p action)
    = Some reward.
Proof.
  intros HS HA HR Htrack H. apply on_track_inv in Htrack.
  apply step_Ok in H as (row & p & Erow & Ep & Heff & Hobs & _ & Hrew & _).
  eexists. exists row, p.
  split; [apply get_reward_per_action_upto; [exact HA | lia]|].
  split; [exact Erow|]. split; [exact Ep|].
  destruct (rewards_upto_lookup (rewards self) (states self)
              (Z.to_nat (position self))
              (effective_action (fst (random (rng self))) p action))
    as (reward' & Er & HM); [lia | lia | exact Heff |].
  rewrite Z2Nat.id in Er, HM by lia.
  rewrite HM. rewrite <- Er, <- Hrew, Hobs. f_equal.
  symmetry. apply arrival_five; assumption.
Qed.

Lemma step_reward_in_reward_matrix_witness :
  exists R_sa row p,
    get_reward_per_action default_engine = Ok R_sa /\
    getitem (transition_probabilities default_engine) 2 = Some row /\
    getitem row 1 = Some p /\
    getitem2 R_sa 2
      (effective_action (fst (random (rng default_engine))) p 1)
    = Some 0%Q.
Proof.
  apply (step_reward_in_reward_matrix default_engine 1 3 0%Q false false []).
  - reflexivity.
  - reflexivity.
  - cbn. lia.
  - reflexivity.
  - reflexivity.
Defined.

(** ** The cells of the transition tensor, and the constructor *)

(** X17: for a table of two columns the tensor is built without error, has
    one plane per state, and its cell for state [s], action [a] and next
    state [s'] holds the probability [P[s, a]] when [s'] is the state
    [get_next_state] gives for [s] and [a], and 0 otherwise. *)
Theorem transition_tensor_cells (P : list (list Q)) :
  two_columns P = true ->
  exists T,
    get_transition_matrix (arange (length P)) (arange 2) P = Ok T /\
    length T = length P /\
    forall (s s' : nat) (a : Z),
      (s < length P)%nat -> (s' < length P)%nat -> valid_action a ->
      exists p,
        getitem2 P (Z.of_nat s) a = Some p /\
        getitem3 T (Z.of_nat s) a (Z.of_nat s')
        = Some (if Z.of_nat s'
                   =? get_next_state (Z.of_nat s) a (arange (length P))
                then p else 0%Q).
Proof.
  intros Hcols.
  destruct (get_transition_matrix_rows P Hcols) as [HT Hrows].
  eexists. split; [exact HT|]. split.
  { unfold tensor_upto. cbv zeta.
    rewrite length_app, length_fmap, length_seq, length_replicate. lia. }
  intros s s' a Hs Hs' Ha.
  destruct (two_columns_lookup P s Hcols Hs) as (p0 & p1 & Erow).
  assert (Hp : exists p, getitem2 P (Z.of_nat s) a = Some p).
  { unfold getitem2. rewrite getitem_of_nat by exact Hs. rewrite Erow.
    destruct Ha as [-> | ->]; eexists; reflexivity. }
  destruct Hp as [p Hp]. exists p. split; [exact Hp|].
  unfold getitem3.
  change (getitem2 (tensor_upto P (length P)) (Z.of_nat s) a)
    with (transition_row (tensor_upto P (length P)) (Z.of_nat s) a).
  rewrite (Hrows s a p Hs Ha Hp).
  pose proof (get_next_state_in_range (Z.of_nat s) a (arange (length P)))
    as Hin.
  rewrite length_arange in Hin. specialize (Hin ltac:(lia)).
  set (next := get_next_state (Z.of_nat s) a (arange (length P))) in *.
  unfold intended_row.
  rewrite getitem_of_nat by (rewrite length_insert, length_replicate; lia).
  destruct (Z.of_nat s' =? next) eqn:E.
  - apply Z.eqb_eq in E. rewrite <- E, Nat2Z.id.
    apply list_lookup_insert_eq. rewrite length_replicate. exact Hs'.
  - apply Z.eqb_neq in E.
    rewrite list_lookup_insert_ne by lia.
    apply lookup_replicate_2. exact Hs'.
Qed.

Lemma transition_tensor_cells_witness :
  exists T,
    get_transition_matrix (arange (length fair_coin_probabilities))
      (arange 2) fair_coin_probabilities = Ok T /\
    length T = length fair_coin_probabilities /\
    forall (s s' : nat) (a : Z),
      (s < length fair_coin_probabilities)%nat ->
      (s' < length fair_coin_probabilities)%nat -> valid_action a ->
      exists p,
        getitem2 fair_coin_probabilities (Z.of_nat s) a = Some p /\
        getitem3 T (Z.of_nat s) a (Z.of_nat s')
        = Some (if Z.of_nat s'
                   =? get_next_state (Z.of_nat s) a
                        (arange (length fair_coin_probabilities))
                then p else 0%Q).
Proof.
  apply (transition_tensor_cells fair_coin_probabilities). reflexivity.
Defined.

Lemma get_transition_matrix_eq (S A : list Z) (P : list (list Q)) :
  get_transition_matrix S A P
  = foldl (fun T s => foldl (transition_cell S P s) T A)
      (Ok (zeros3 (length S) (length A) (length S))) S.
Proof. reflexivity. Qed.

Lemma Discrete_positive (n : Z) : 0 < n -> Discrete n = Ok (DiscreteSpace n).
Proof. intros H. unfold Discrete. replace (0 <? n) with true by lia. reflexivity. Qed.

Lemma Discrete_not_positive (n : Z) : n <= 0 -> Discrete n = Raise AssertionError.
Proof. intros H. unfold Discrete. replace (0 <? n) with false by lia. reflexivity. Qed.

Lemma get_transition_matrix_narrow (P : list (list Q)) (row : list Q) :
  P !! 0%nat = Some row -> (length row < 2)%nat ->
  get_transition_matrix (arange (length P)) (arange 2) P
  = Raise (IndexError TransitionLookup).
Proof.
  intros HP Hrow.
  destruct P as [|row0 rest]; [discriminate|]. injection HP as ->.
  rewrite get_transition_matrix_eq.
  change (arange (length (row :: rest)))
    with (0 :: map Z.of_nat (seq 1 (length rest))).
  cbn [foldl]. change (arange 2) with [0; 1]. cbn [foldl].
  destruct row as [|p0 [|p1 row]]; [| |cbn in Hrow; lia].
  - change (transition_cell _ _ 0 (Ok _) 0)
      with (@Raise tensor (IndexError TransitionLookup)).
    change (transition_cell _ _ 0 (Raise _) 1)
      with (@Raise tensor (IndexError TransitionLookup)).
    apply (foldl_invariant
             (fun r => r = Raise (IndexError TransitionLookup)));
      [intros acc s ->; reflexivity | reflexivity].
  - set (first := transition_cell _ _ 0 (Ok _) 0).
    assert (Hfirst : exists T, first = Ok T).
    { subst first. unfold transition_cell. cbn [result_bind]. cbv zeta.
      replace (get_next_state 0 0 _) with 0
        by (unfold get_next_state; cbn [Z.eqb]; lia).
      eexists. reflexivity. }
    destruct Hfirst as [T ->].
    change (transition_cell _ _ 0 (Ok T) 1)
      with (@Raise tensor (IndexError TransitionLookup)).
    apply (foldl_invariant
             (fun r => r = Raise (IndexError TransitionLookup)));
      [intros acc s ->; reflexivity | reflexivity].
Qed.

(** X18: a table whose first row has fewer than two columns cannot be used:
    the constructor raises [IndexError] at the lookup [P[s, a]] of
    [get_transition_matrix], whatever the other arguments. *)
Theorem init_narrow_table
    (seeded_draws : Z -> nat -> Q) (entropy : nat -> Q)
    (P : list (list Q)) (R : list Q) (h : Z) (seed : option Z)
    (row : list Q) :
  P !! 0%nat = Some row -> (length row < 2)%nat ->
  __init__ seeded_draws entropy P R h seed
  = Raise (IndexError TransitionLookup).
Proof.
  intros HP Hrow. unfold __init__. cbv zeta.
  rewrite Discrete_positive
    by (destruct P; [discriminate | cbn [length]; lia]).
  rewrite (Discrete_positive 2) by lia. cbn [result_bind].
  rewrite (get_transition_matrix_narrow P row HP Hrow). reflexivity.
Qed.

Lemma init_narrow_table_witness :
  __init__ fixture_seeded (constant_draws 0) [[1]; [1]; [1]]%Q
    three_state_rewards default_horizon None
  = Raise (IndexError TransitionLookup).
Proof.
  apply (init_narrow_table fixture_seeded (constant_draws 0)
           [[1]; [1]; [1]]%Q three_state_rewards default_horizon None [1]%Q).
  - reflexivity.
  - cbn. lia.
Defined.

(** X19: on tables of two columns the constructor behaves as follows,
    whatever the rewards and the horizon (a reward list of another length, a
    horizon below 1 and probabilities outside [[0, 1]] are not rejected).
    An empty table is refused with the [AssertionError] of the observation
    space.  For a non-empty table a negative seed is refused with
    [ValueError], and otherwise the engine is built: it starts at position 2
    with no step counted, its spaces are [Discrete(n)] and [Discrete(2)],
    its states are [0..n-1], its actions 0 and 1, its tensor is the one of
    [get_transition_matrix], and its rewards, probabilities and horizon are
    the arguments. *)
Theorem init_on_two_columns
    (seeded_draws : Z -> nat -> Q) (entropy : nat -> Q)
    (P : list (list Q)) (R : list Q) (h : Z) (seed : option Z) :
  two_columns P = true ->
  (P = [] ->
   __init__ seeded_draws entropy P R h seed = Raise AssertionError) /\
  (P <> [] -> forall z, seed = Some z -> z < 0 ->
   __init__ seeded_draws entropy P R h seed = Raise ValueError) /\
  (P <> [] -> (forall z, seed = Some z -> 0 <= z) ->
   exists T g,
     get_transition_matrix (arange (length P)) (arange 2) P = Ok T /\
     default_rng seeded_draws entropy seed = Ok g /\
     drawn g = 0%nat /\
     __init__ seeded_draws entropy P R h seed
     = Ok {| rewards := R;
             transition_probabilities := P;
             current_steps := 0;
             horizon := h;
             position := 2;
             observation_space := DiscreteSpace (Z.of_nat (length P));
             action_space := DiscreteSpace 2;
             states := arange (length P);
             actions := [0; 1];
             transition_matrix := T;
             rng := g |}).
Proof.
  intros Hcols.
  destruct (get_transition_matrix_rows P Hcols) as [HT _].
  split; [intros ->; reflexivity|].
  assert (Hn : P <> [] -> 0 < Z.of_nat (length P))
    by (destruct P; [congruence | cbn [length]; lia]).
  split.
  - intros HP z -> Hz. unfold __init__. cbv zeta.
    rewrite (Discrete_positive _ (Hn HP)), (Discrete_positive 2) by lia.
    cbn [result_bind]. rewrite HT. cbn [result_bind default_rng].
    replace (z <? 0) with true by lia. reflexivity.
  - intros HP Hseed.
    assert (Hg : exists g, default_rng seeded_draws entropy seed = Ok g
                           /\ drawn g = 0%nat).
    { destruct seed as [z|]; cbn [default_rng].
      - specialize (Hseed z eq_refl).
        replace (z <? 0) with false by lia. eexists. split; reflexivity.
      - eexists. split; reflexivity. }
    destruct Hg as (g & Hg & Hdrawn).
    eexists. exists g. split; [exact HT|]. split; [exact Hg|].
    split; [exact Hdrawn|].
    unfold __init__. cbv zeta.
    rewrite (Discrete_positive _ (Hn HP)), (Discrete_positive 2) by lia.
    cbn [result_bind]. rewrite HT. cbn [result_bind]. rewrite Hg.
    reflexivity.
Qed.

Lemma init_on_two_columns_witness :
  __init__ fixture_seeded (constant_draws 0) [] default_rewards (-3) None
  = Raise AssertionError /\
  __init__ fixture_seeded (constant_draws 0) (ones 2) default_rewards (-3)
    (Some (-1))
  = Raise ValueError /\
  exists T g,
    get_transition_matrix (arange (length (ones 2))) (arange 2) (ones 2)
    = Ok T /\
    default_rng fixture_seeded (constant_draws 0) (Some 7) = Ok g /\
    drawn g = 0%nat /\
    __init__ fixture_seeded (constant_draws 0) (ones 2) default_rewards (-3)
      (Some 7)
    = Ok {| rewards := default_rewards;
            transition_probabilities := ones 2;
            current_steps := 0;
            horizon := -3;
            position := 2;
            observation_space := DiscreteSpace (Z.of_nat (length (ones 2)));
            action_space := DiscreteSpace 2;
            states := arange (length (ones 2));
            actions := [0; 1];
            transition_matrix := T;
            rng := g |}.
Proof.
  assert (Hne : ones 2 <> []) by discriminate.
  split.
  - exact (proj1 (init_on_two_columns fixture_seeded (constant_draws 0) []
                    default_rewards (-3) None eq_refl) eq_refl).
  - split.
    + apply (proj1 (proj2 (init_on_two_columns fixture_seeded
                             (constant_draws 0) (ones 2) default_rewards (-3)
                             (Some (-1)) eq_refl)) Hne (-1) eq_refl).
      lia.
    + apply (proj2 (proj2 (init_on_two_columns fixture_seeded
                             (constant_draws 0) (ones 2) default_rewards (-3)
                             (Some 7) eq_refl)) Hne).
      intros z [= <-]. lia.
Defined.

Lemma transition_rows_sum_to_P_witness :
  exists T row,
    get_transition_matrix (arange (length fair_coin_probabilities))
      (arange 2) fair_coin_probabilities = Ok T /\
    transition_row T (Z.of_nat 2) 1 = Some row /\
    (row_sum row == 1 # 2)%Q.
Proof.
  apply (transition_rows_sum_to_P fair_coin_probabilities 2 1 (1 # 2)%Q).
  - reflexivity.
  - cbn. lia.
  - right. reflexivity.
  - reflexivity.
Defined.

(** ** Reproducibility *)

Lemma Qltb_same (u1 u2 p : Q) : (u1 == u2)%Q -> Qltb u1 p = Qltb u2 p.
Proof.
  intros Hu.
  destruct (Qltb u1 p) eqn:E1; destruct (Qltb u2 p) eqn:E2; try reflexivity.
  - apply Qltb_lt in E1. rewrite Hu in E1. apply Qltb_lt in E1. congruence.
  - apply Qltb_lt in E2. rewrite <- Hu in E2. apply Qltb_lt in E2. congruence.
Qed.

Lemma same_draws_random (g1 g2 : Generator) :
  same_draws g1 g2 ->
  (fst (random g1) == fst (random g2))%Q /\
  same_draws (snd (random g1)) (snd (random g2)).
Proof.
  intros [Hn Hd]. unfold random. cbn [fst snd]. split.
  - rewrite Hn. apply Hd.
  - split; [cbn [drawn]; rewrite Hn; reflexivity | exact Hd].
Qed.

(** A call of [step] depends on the generator through the number it draws
    only. *)
Lemma step_same_draws (self : MarsRover) (g : Generator) (action : Z) :
  same_draws (rng self) g ->
  fst (step action (with_rng self g)) = fst (step action self) /\
  snd (step action (with_rng self g))
  = with_rng (snd (step action self)) (snd (random g)).
Proof.
  intros Hg. destruct (same_draws_random _ _ Hg) as [Hu _].
  rewrite !step_eq.
  cbn [with_rng transition_probabilities position rng].
  destruct (getitem (transition_probabilities self) (position self))
    as [row|] eqn:Erow.
  2:{ split; [reflexivity|]. destruct self; reflexivity. }
  destruct (getitem row action) as [p|] eqn:Ep.
  2:{ split; [reflexivity|]. destruct self; reflexivity. }
  cbv zeta. unfold effective_action.
  rewrite <- (Qltb_same _ _ p Hu).
  destruct (Qltb (fst (random (rng self))) p);
    destruct self as [R P c h pos OS AS S A T g0];
    cbn [position]; unfold report.
  - destruct (action =? 0).
    { destruct (pos >? 0); cbn; destruct (getitem R _); split; reflexivity. }
    destruct (action =? 1).
    { destruct (pos <? 4); cbn; destruct (getitem R _); split; reflexivity. }
    split; reflexivity.
  - destruct (1 - action =? 0).
    { destruct (pos >? 0); cbn; destruct (getitem R _); split; reflexivity. }
    destruct (1 - action =? 1).
    { destruct (pos <? 4); cbn; destruct (getitem R _); split; reflexivity. }
    split; reflexivity.
Qed.

Lemma outcomes_same_draws (acts : list Z) :
  forall (self : MarsRover) (g : Generator),
  same_draws (rng self) g ->
  outcomes acts (with_rng self g) = outcomes acts self.
Proof.
  induction acts as [|a acts IH]; intros self g Hg; [reflexivity|].
  destruct (step_same_draws self g a Hg) as [Hfst Hsnd].
  pose proof (step_state self a) as (_ & _ & _ & _ & Hrng).
  cbn [outcomes].
  destruct (step a (with_rng self g)) as [r1 s1].
  destruct (step a self) as [r2 s2].
  cbn [fst snd] in *. subst r1 s1. f_equal.
  apply IH. rewrite Hrng. apply same_draws_random. exact Hg.
Qed.

(** What the constructor returns, read off its four steps. *)
Lemma init_Ok (seeded_draws : Z -> nat -> Q) (entropy : nat -> Q)
    (P : list (list Q)) (R : list Q) (h : Z) (seed : option Z)
    (self : MarsRover) :
  __init__ seeded_draws entropy P R h seed = Ok self ->
  exists T g,
    get_transition_matrix (arange (length P)) (arange 2) P = Ok T /\
    default_rng seeded_draws entropy seed = Ok g /\
    self = {| rewards := R;
              transition_probabilities := P;
              current_steps := 0;
              horizon := h;
              position := 2;
              observation_space := DiscreteSpace (Z.of_nat (length P));
              action_space := DiscreteSpace 2;
              states := arange (length P);
              actions := arange 2;
              transition_matrix := T;
              rng := g |}.
Proof.
  unfold __init__. cbv zeta. unfold Discrete at 1.
  destruct (0 <? Z.of_nat (length P)); [|discriminate].
  cbn [result_bind Discrete Z.ltb Z.compare].
  destruct (get_transition_matrix _ _ P) as [T|e]; [|discriminate].
  cbn [result_bind].
  destruct (default_rng seeded_draws entropy seed) as [g|e]; [|discriminate].
  cbn [result_bind]. intros [= <-]. eauto.
Qed.

(** What makes the constructor raise does not depend on the generator
    family or on the entropy. *)
Lemma init_Raise (seeded1 seeded2 : Z -> nat -> Q)
    (entropy1 entropy2 : nat -> Q)
    (P : list (list Q)) (R : list Q) (h : Z) (seed : option Z) (e : exn) :
  __init__ seeded1 entropy1 P R h seed = Raise e ->
  __init__ seeded2 entropy2 P R h seed = Raise e.
Proof.
  unfold __init__. cbv zeta. unfold Discrete at 1 3.
  destruct (0 <? Z.of_nat (length P)); [|exact (fun H => H)].
  cbn [result_bind Discrete Z.ltb Z.compare].
  destruct (get_transition_matrix _ _ P) as [T|e']; [|exact (fun H => H)].
  cbn [result_bind]. unfold default_rng.
  destruct seed as [z|]; [destruct (z <? 0)|]; cbn [result_bind];
    try discriminate.
  exact (fun H => H).
Qed.

(** C8: for every seed, every action sequence and every construction
    arguments, take two engines freshly constructed with that seed, in two
    processes whose generators yield the same numbers for the seed (as equal
    seeds do), whatever entropy the processes hold.  If one construction
    raises, so does the other, with the same error; otherwise the two
    engines, fed the same action sequence, produce the same outcome at
    every call, in particular the same observations and rewards.  The
    construction succeeds for a non-empty table of two columns and a seed
    that is not negative. *)
Theorem same_seed_same_outcomes
    (seeded1 seeded2 : Z -> nat -> Q) (entropy1 entropy2 : nat -> Q)
    (P : list (list Q)) (R : list Q) (h : Z) (seed : Z) (acts : list Z) :
  (forall i, (seeded1 seed i == seeded2 seed i)%Q) ->
  (forall e1 e2,
     __init__ seeded1 entropy1 P R h (Some seed) = Ok e1 ->
     __init__ seeded2 entropy2 P R h (Some seed) = Ok e2 ->
     outcomes acts e1 = outcomes acts e2 /\
     map signal (outcomes acts e1) = map signal (outcomes acts e2)) /\
  (forall e,
     __init__ seeded1 entropy1 P R h (Some seed) = Raise e <->
     __init__ seeded2 entropy2 P R h (Some seed) = Raise e) /\
  (P <> [] -> two_columns P = true -> 0 <= seed ->
   is_Ok (__init__ seeded1 entropy1 P R h (Some seed)) /\
   is_Ok (__init__ seeded2 entropy2 P R h (Some seed))).
Proof.
  intros Hseed. split; [|split].
  - intros e1 e2 H1 H2.
    apply init_Ok in H1 as (T1 & g1 & HT1 & Hg1 & ->).
    apply init_Ok in H2 as (T2 & g2 & HT2 & Hg2 & ->).
    rewrite HT1 in HT2. injection HT2 as <-.
    cbn [default_rng] in Hg1, Hg2.
    destruct (seed <? 0); [discriminate|].
    injection Hg1 as <-. injection Hg2 as <-.
    assert (E : outcomes acts
                  {| rewards := R; transition_probabilities := P;
                     current_steps := 0; horizon := h; position := 2;
                     observation_space :=
                       DiscreteSpace (Z.of_nat (length P));
                     action_space := DiscreteSpace 2;
                     states := arange (length P); actions := arange 2;
                     transition_matrix := T1;
                     rng := {| draws := seeded2 seed; drawn := 0 |} |}
                = outcomes acts
                  {| rewards := R; transition_probabilities := P;
                     current_steps := 0; horizon := h; position := 2;
                     observation_space :=
                       DiscreteSpace (Z.of_nat (length P));
                     action_space := DiscreteSpace 2;
                     states := arange (length P); actions := arange 2;
                     transition_matrix := T1;
                     rng := {| draws := seeded1 seed; drawn := 0 |} |}).
    { apply (outcomes_same_draws acts
               {| rewards := R; transition_probabilities := P;
                  current_steps := 0; horizon := h; position := 2;
                  observation_space := DiscreteSpace (Z.of_nat (length P));
                  action_space := DiscreteSpace 2;
                  states := arange (length P); actions := arange 2;
                  transition_matrix := T1;
                  rng := {| draws := seeded1 seed; drawn := 0 |} |}
               {| draws := seeded2 seed; drawn := 0 |}).
      split; [reflexivity | exact Hseed]. }
    rewrite E. split; reflexivity.
  - intros e. split; apply init_Raise.
  - intros HP Hcols Hnonneg.
    destruct (get_transition_matrix_rows P Hcols) as [HT _].
    assert (Hn : 0 < Z.of_nat (length P))
      by (destruct P; [congruence | cbn [length]; lia]).
    split; unfold __init__; cbv zeta;
      rewrite (Discrete_positive _ Hn), (Discrete_positive 2) by lia;
      cbn [result_bind]; rewrite HT; cbn [result_bind default_rng];
      replace (seed <? 0) with false by lia; eexists; reflexivity.
Qed.

Lemma same_seed_same_outcomes_witness :
  (forall i : nat, (fixture_seeded 0 i == 2 # 4)%Q) /\
  outcomes [1; 0; 0] default_engine
  = outcomes [1; 0; 0]
      (with_rng default_engine
         {| draws := fun _ => (2 # 4)%Q; drawn := 0 |}) /\
  is_Ok (__init__ fixture_seeded (constant_draws 0)
           default_transition_probabilities default_rewards default_horizon
           (Some 0)).
Proof.
  assert (H : forall i : nat, (fixture_seeded 0 i == 2 # 4)%Q)
    by (intros i; reflexivity).
  destruct (same_seed_same_outcomes fixture_seeded (fun _ _ => (2 # 4)%Q)
              (constant_draws 0) (constant_draws (3 # 4))
              default_transition_probabilities default_rewards
              default_horizon 0 [1; 0; 0] H) as (Hrun & _ & Hok).
  split; [exact H|]. split.
  - exact (proj1 (Hrun default_engine
                    (with_rng default_engine
                       {| draws := fun _ => (2 # 4)%Q; drawn := 0 |})
                    eq_refl eq_refl)).
  - apply Hok; [discriminate | reflexivity | lia].
Defined.
